(** * Tap Miner game server: round state machine of [tap-miner/server.js]

    A shallow embedding of the game logic of the server (the [gameState]
    object, [countLeadingZeros], [startNewGame], [endGame] and the
    [message] and [close] handlers of a WebSocket connection) together with
    the properties of its round lifecycle.

    Conventions of the embedding:
    - [gameState.players] (a JS [Map] from connection id to display name) is
      a [gmap string string]; [Map.get] on a missing key yields [undefined],
      modelled by [None];
    - [gameState.hashes] (a JS array of submission objects) is a [list];
    - [Date.now()] is an argument [now] of the handlers that read the clock;
    - [broadcast], [ws.send] and [setTimeout] do not touch [gameState]; the
      handlers record them, in program order, in a list of effects;
    - the SHA-256 hex digest of [crypto] is a parameter of the development. *)

From Stdlib Require Import ZArith String Ascii List Sorting.Sorted.
From stdpp Require Import base tactics option list gmap strings pretty.

Local Open Scope Z_scope.
Local Open Scope nat_scope.

(** ** Digest scoring: [countLeadingZeros] *)

(** The body of the [for] loop of [countLeadingZeros], entered with index [i];
    [remaining] is [hash.length - i], so that the loop test [i < hash.length]
    is [remaining ≠ 0].  [hash[i] !== '0'] also holds when [hash[i]] is
    [undefined]. *)
Fixpoint countLeadingZeros_loop (hash : string) (i remaining : nat) : nat :=
  match remaining with
  | O => String.length hash
  | S remaining' =>
      match String.get i hash with
      | Some c =>
          if Ascii.eqb c "0"%char
          then countLeadingZeros_loop hash (S i) remaining'
          else i
      | None => i
      end
  end.

Definition countLeadingZeros (hash : string) : nat :=
  countLeadingZeros_loop hash 0 (String.length hash).

(** The characters of a string that are ['0'] from the start on: the
    structural reading of the same count. *)
Fixpoint zero_prefix (hash : string) : nat :=
  match hash with
  | EmptyString => 0
  | String c rest => if Ascii.eqb c "0"%char then S (zero_prefix rest) else 0
  end.


(** ** The game state

    A submission is the object pushed on [gameState.hashes] by the [tap]
    handler; [playerName] holds the result of [players.get(playerId)] at the
    time of the tap, [None] standing for [undefined]. *)
Record Submission : Type := mkSubmission {
  playerId : string;
  playerName : option string;
  hash : string;
  timestamp : Z;
  tapCount : Z
}.

(** [gameState]; [startTime] is [null] until the first round starts. *)
Record GameState : Type := mkGameState {
  isActive : bool;
  players : gmap string string;
  hashes : list Submission;
  startTime : option Z;
  duration : Z
}.

Definition initial_gameState : GameState :=
  {| isActive := false; players := ∅; hashes := [];
     startTime := None; duration := 120000 |}.

Definition set_isActive (b : bool) (gs : GameState) : GameState :=
  {| isActive := b; players := players gs; hashes := hashes gs;
     startTime := startTime gs; duration := duration gs |}.

Definition set_players (m : gmap string string) (gs : GameState) : GameState :=
  {| isActive := isActive gs; players := m; hashes := hashes gs;
     startTime := startTime gs; duration := duration gs |}.

Definition set_hashes (l : list Submission) (gs : GameState) : GameState :=
  {| isActive := isActive gs; players := players gs; hashes := l;
     startTime := startTime gs; duration := duration gs |}.

Definition set_startTime (t : option Z) (gs : GameState) : GameState :=
  {| isActive := isActive gs; players := players gs; hashes := hashes gs;
     startTime := t; duration := duration gs |}.

(** ** Messages and effects *)

(** The [winner] object of the [gameEnd] message. *)
Record WinnerInfo : Type := mkWinnerInfo {
  winner_playerId : string;
  winner_playerName : option string;
  winner_hash : string;
  winner_leadingZeros : Z
}.

(** Messages sent by the server, one constructor per [type]. *)
Inductive ServerMsg : Type :=
  | gameStart (startTime : option Z)
  | gameEnd (winner : option WinnerInfo) (allHashes : list Submission)
  | joined (playerId : string) (gameActive : bool) (startTime : option Z)
           (duration : Z)
  | playerJoined (playerId : string) (playerName : string) (playerCount : nat)
  | playerLeft (playerId : string) (playerCount : nat)
  | newHash (playerId : string) (playerName : option string) (hash : string)
            (leadingZeros : nat).

(** Decoded client messages: the two cases of the [switch] on [data.type],
    and any other type, for which the [switch] does nothing.  The fields
    have the types of the message interface: [playerName] a string,
    [tapCount] an integer. *)
Inductive ClientMsg : Type :=
  | MsgJoin (playerName : string)
  | MsgTap (tapCount : Z)
  | MsgOther.

(** The two timer callbacks of the server. *)
Inductive Callback : Type :=
  | CbEndGame
  | CbStartNewGame.

(** What a handler does besides updating [gameState]: [broadcast(m)],
    [ws.send(m)] to the connection of the handler, and
    [setTimeout(cb, delay)]. *)
Inductive Effect : Type :=
  | Broadcast (m : ServerMsg)
  | Send (m : ServerMsg)
  | SetTimeout (cb : Callback) (delay : Z).

(** ** A state-and-output monad for the handlers *)

Definition M (A : Type) : Type := GameState → A * GameState * list Effect.

#[global] Instance M_ret : MRet M := λ A a gs, (a, gs, []).

#[global] Instance M_bind : MBind M := λ A B k m gs,
  let '(a, gs1, out1) := m gs in
  let '(b, gs2, out2) := k a gs1 in
  (b, gs2, out1 ++ out2).

Definition get_state : M GameState := λ gs, (gs, gs, []).

Definition modify (f : GameState → GameState) : M unit := λ gs, (tt, f gs, []).

Definition emit (e : Effect) : M unit := λ gs, (tt, gs, [e]).

Definition broadcast (m : ServerMsg) : M unit := emit (Broadcast m).

Definition send (m : ServerMsg) : M unit := emit (Send m).

Definition setTimeout (cb : Callback) (delay : Z) : M unit :=
  emit (SetTimeout cb delay).

(** State and effects of running a handler. *)
Definition exec {A : Type} (m : M A) (gs : GameState) : GameState * list Effect :=
  ((m gs).1.2, (m gs).2).

(** ** [startNewGame] *)

Definition startNewGame (now : Z) : M unit :=
  modify (set_isActive true) ;;
  modify (set_players ∅) ;;
  modify (set_hashes []) ;;
  modify (set_startTime (Some now)) ;;
  gs ← get_state;
  broadcast (gameStart (startTime gs)) ;;
  setTimeout CbEndGame (duration gs).

(** ** [endGame] *)

(** The comparator [(a, b) => a.timestamp - b.timestamp]. *)
Definition compare_timestamp (a b : Submission) : Z :=
  (timestamp a - timestamp b)%Z.

(** [Array.prototype.sort(compareFn)]: the language standard requires a
    stable sort, under which [b] ends before [a] only when
    [compareFn(b, a) < 0].  For a comparator that is a total preorder the
    result does not depend on the algorithm; it is modelled by a
    stable insertion sort. *)
Fixpoint sort_insert {A : Type} (compareFn : A → A → Z) (x : A) (l : list A)
  : list A :=
  match l with
  | [] => [x]
  | y :: l' =>
      if (compareFn y x <? 0)%Z
      then y :: sort_insert compareFn x l'
      else x :: y :: l'
  end.

Fixpoint array_sort {A : Type} (compareFn : A → A → Z) (l : list A) : list A :=
  match l with
  | [] => []
  | x :: l' => sort_insert compareFn x (array_sort compareFn l')
  end.

(** One iteration of the [for (const hash of gameState.hashes)] loop over
    the pair of locals [(winner, maxZeros)]. *)
Definition scan_step (acc : option Submission * Z) (h : Submission)
  : option Submission * Z :=
  let '(winner, maxZeros) := acc in
  let zeros := Z.of_nat (countLeadingZeros (hash h)) in
  if (maxZeros <? zeros)%Z then (Some h, zeros) else (winner, maxZeros).

(** The whole loop, from [winner = null] and [maxZeros = -1]. *)
Definition scan_hashes (l : list Submission) : option Submission * Z :=
  fold_left scan_step l (None, (-1)%Z).

(** The [winner] field of the [gameEnd] message:
    [winner ? { playerId: winner.playerId,
                playerName: gameState.players.get(winner.playerId),
                hash: winner.hash, leadingZeros: maxZeros } : null]. *)
Definition winner_object (gs : GameState) (winner : option Submission)
  (maxZeros : Z) : option WinnerInfo :=
  match winner with
  | Some w =>
      Some {| winner_playerId := playerId w;
              winner_playerName := players gs !! playerId w;
              winner_hash := hash w;
              winner_leadingZeros := maxZeros |}
  | None => None
  end.

Definition endGame : M unit :=
  modify (set_isActive false) ;;
  modify (λ gs, set_hashes (array_sort compare_timestamp (hashes gs)) gs) ;;
  gs ← get_state;
  let '(winner, maxZeros) := scan_hashes (hashes gs) in
  broadcast (gameEnd (winner_object gs winner maxZeros) (hashes gs)) ;;
  setTimeout CbStartNewGame 10000.

(** ** The WebSocket handlers of one connection *)

Section Handlers.

(** [crypto.createHash('sha256').update(s).digest('hex')]. *)
Variable sha256_hex : string → string.

(** [ws.on('message')] for the connection that was given [playerId], the
    clock reading [now].  In the template literal of the [tap] case a number
    is written by [pretty], its decimal notation; that is what JavaScript
    prints for the integers of absolute value below 2^53, among them every
    reading of [Date.now()]. *)
Definition onMessage (playerId : string) (now : Z) (data : ClientMsg) : M unit :=
  match data with
  | MsgJoin name =>
      modify (λ gs, set_players (<[playerId := name]> (players gs)) gs) ;;
      gs ← get_state;
      send (joined playerId (isActive gs) (startTime gs) (duration gs)) ;;
      broadcast (playerJoined playerId name (size (players gs)))
  | MsgTap count =>
      gs ← get_state;
      if isActive gs then
        let timestamp := now in
        let hash := sha256_hex (playerId +:+ pretty timestamp +:+ pretty count) in
        modify (λ gs, set_hashes
          (hashes gs ++ [ {| playerId := playerId;
                             playerName := players gs !! playerId;
                             hash := hash;
                             timestamp := timestamp;
                             tapCount := count |} ]) gs) ;;
        gs ← get_state;
        broadcast (newHash playerId (players gs !! playerId) hash
                     (countLeadingZeros hash))
      else mret tt
  | MsgOther => mret tt
  end.

(** [ws.on('close')]. *)
Definition onClose (playerId : string) : M unit :=
  modify (λ gs, set_players (delete playerId (players gs)) gs) ;;
  gs ← get_state;
  broadcast (playerLeft playerId (size (players gs))).

(** ** The server as a whole: game state, pending timers, output *)

Record Server : Type := mkServer {
  game : GameState;
  pending : list (Callback * Z);
  output : list ServerMsg
}.

(** What can happen to a running server: a pending timer (the [k]-th one)
    fires, a connection delivers a message, a connection closes.  The model
    lets any pending timer fire at any time. *)
Inductive Input : Type :=
  | Fire (k : nat) (now : Z)
  | Message (playerId : string) (now : Z) (data : ClientMsg)
  | Close (playerId : string).

Definition run_callback (cb : Callback) (now : Z) : M unit :=
  match cb with
  | CbEndGame => endGame
  | CbStartNewGame => startNewGame now
  end.

Definition timers_of (out : list Effect) : list (Callback * Z) :=
  omap (λ e, match e with SetTimeout cb d => Some (cb, d) | _ => None end) out.

Definition messages_of (out : list Effect) : list ServerMsg :=
  omap (λ e, match e with
             | Broadcast m | Send m => Some m
             | SetTimeout _ _ => None
             end) out.

Definition run_handler (m : M unit) (timers : list (Callback * Z)) (srv : Server)
  : Server :=
  let '(gs, out) := exec m (game srv) in
  {| game := gs;
     pending := timers ++ timers_of out;
     output := output srv ++ messages_of out |}.

Definition step (srv : Server) (i : Input) : Server :=
  match i with
  | Fire k now =>
      match pending srv !! k with
      | Some (cb, _) => run_handler (run_callback cb now) (delete k (pending srv)) srv
      | None => srv
      end
  | Message id now data => run_handler (onMessage id now data) (pending srv) srv
  | Close id => run_handler (onClose id) (pending srv) srv
  end.

(** The server after [server.listen] has called [startNewGame] at time
    [now0]. *)
Definition boot (now0 : Z) : Server :=
  run_handler (startNewGame now0) []
    {| game := initial_gameState; pending := []; output := [] |}.

Definition run (now0 : Z) (inputs : list Input) : Server :=
  fold_left step inputs (boot now0).

End Handlers.

(** ** Notions used in the statements *)

(** The score of a submission, as the loop computes it. *)
Definition zeros (h : Submission) : Z := Z.of_nat (countLeadingZeros (hash h)).

Definition le_timestamp (a b : Submission) : Prop :=
  (timestamp a ≤ timestamp b)%Z.

(** The invariant of the timer chain: exactly one timer is pending, the end
    of the round while a round is active, the next start otherwise. *)
Definition one_timer (srv : Server) : Prop :=
  (isActive (game srv) = true ∧ ∃ d, pending srv = [(CbEndGame, d)]) ∨
  (isActive (game srv) = false ∧ ∃ d, pending srv = [(CbStartNewGame, d)]).

(** ** Example data *)

(** Four submissions whose digests start with 2, 5, 5 and 3 zero characters,
    in timestamp order. *)
Definition tie_break_round : list Submission :=
  [ {| playerId := "p0"; playerName := Some "Ann"; hash := "00a1";
       timestamp := 1000; tapCount := 1 |};
    {| playerId := "p1"; playerName := Some "Bob"; hash := "00000b2";
       timestamp := 1001; tapCount := 1 |};
    {| playerId := "p2"; playerName := Some "Cid"; hash := "00000c3";
       timestamp := 1002; tapCount := 1 |};
    {| playerId := "p3"; playerName := Some "Dee"; hash := "000d4";
       timestamp := 1003; tapCount := 1 |} ].

(** A round in progress: one player on the roster, one submission. *)
Definition round_in_progress : GameState :=
  {| isActive := true;
     players := {[ "p1" := "Alice" ]};
     hashes := [ {| playerId := "p1"; playerName := Some "Alice";
                     hash := "0a1b"; timestamp := 1500; tapCount := 1 |} ];
     startTime := Some 1000%Z;
     duration := 120000 |}.

(** A digest function for the examples (any function will do). *)
Definition example_digest (s : string) : string := "00" +:+ s.

(** Unfolds the monad down to state, result and effect list. *)
Ltac unfold_handler :=
  unfold exec, mbind, M_bind, mret, M_ret, modify, get_state,
         broadcast, send, setTimeout, emit;
  cbn -[scan_hashes array_sort].

(** ** The connections: [broadcast], the heartbeat and [/health] *)

(** [ws.readyState]. *)
Inductive ReadyState : Type :=
  | CONNECTING
  | OPEN
  | CLOSING
  | CLOSED.

#[global] Instance ReadyState_eq_dec : EqDecision ReadyState.
Proof. solve_decision. Defined.

(** A member of [wss.clients]: the socket (told apart by [handle]) with the
    [isAlive] flag that the second [connection] handler attaches to it. *)
Record Client : Type := mkClient {
  handle : nat;
  readyState : ReadyState;
  isAlive : bool
}.

(** The calls of [client.send] that [broadcast(message)] makes, in the order
    of [wss.clients.forEach]. *)
Definition broadcast_sends (clients : list Client) (message : ServerMsg)
  : list (nat * ServerMsg) :=
  flat_map (λ client,
              if decide (readyState client = OPEN)
              then [(handle client, message)]
              else [])
           clients.

(** What the socket [h] is sent by a sequence of sends. *)
Definition inbox (h : nat) (sends : list (nat * ServerMsg)) : list ServerMsg :=
  omap (λ hm, if decide (hm.1 = h) then Some hm.2 else None) sends.

(** [wss.on('connection')]: the new socket is open and marked alive. *)
Definition on_connection (h : nat) (clients : list Client) : list Client :=
  clients ++ [ {| handle := h; readyState := OPEN; isAlive := true |} ].

(** [function heartbeat() { this.isAlive = true; }], the [pong] handler. *)
Definition heartbeat (ws : Client) : Client :=
  {| handle := handle ws; readyState := readyState ws; isAlive := true |}.

Definition on_pong (h : nat) (clients : list Client) : list Client :=
  (λ ws, if decide (handle ws = h) then heartbeat ws else ws) <$> clients.

Inductive HeartbeatAction : Type :=
  | Terminate (h : nat)
  | Ping (h : nat).

(** The callback of the interval for one socket:
    [if (ws.isAlive === false) return ws.terminate();
     ws.isAlive = false; ws.ping();]. *)
Definition sweep_client (ws : Client) : Client * HeartbeatAction :=
  if negb (isAlive ws)
  then (ws, Terminate (handle ws))
  else ({| handle := handle ws; readyState := readyState ws; isAlive := false |},
        Ping (handle ws)).

(** One firing of the interval over [wss.clients]. *)
Definition sweep (clients : list Client) : list Client * list HeartbeatAction :=
  ((λ ws, (sweep_client ws).1) <$> clients,
   (λ ws, (sweep_client ws).2) <$> clients).

(** The [connections] object of the [/health] reply:
    [{ total: wss.clients.size,
       active: Array.from(wss.clients).filter(client => client.isAlive).length }]. *)
Definition health_connections (clients : list Client) : nat * nat :=
  (length clients, length (filter (λ client, isAlive client = true) clients)).

(** ** [log] and [gracefulShutdown] *)

(** [serverState]; its [startTime] field is [serverStartTime] here. *)
Record ServerState : Type := mkServerState {
  serverStartTime : Z;
  connections : Z;
  gamesPlayed : Z;
  isShuttingDown : bool;
  readyForConnections : bool
}.

(** What [gracefulShutdown] does to the outside, up to the call of
    [wss.close] (whose callback runs later). *)
Inductive ShutdownAction : Type :=
  | ConsoleLog (args : list string)
  | ServerUnref
  | ClearTimeout
  | SendSystem (h : nat)
  | WssClose.

(** How a call ends: it returns, or an exception leaves it. *)
Inductive Completion : Type :=
  | Returns
  | Throws (error : string).

(** [log(...args)]: prints when [DEBUG] holds or the first argument is
    ['ERROR'] (the time stamp that is printed first is left out). *)
Definition log (DEBUG : bool) (args : list string) : list ShutdownAction :=
  if DEBUG || bool_decide (head args = Some "ERROR"%string)
  then [ConsoleLog args]
  else [].

(** What the identifier [gameTimer] resolves to where [gracefulShutdown]
    reads it: [None] when no declaration of it is in scope, otherwise whether
    its value is truthy.  [server.js] declares no [gameTimer], neither at top
    level nor in the function, and never assigns to it. *)
Definition gameTimer_in_scope : option bool := None.

(** [gracefulShutdown(signal)]; reading an identifier that is not declared
    throws a [ReferenceError]. *)
Definition gracefulShutdown (DEBUG : bool) (gameTimer : option bool)
  (clients : list Client) (signal : string) (st : ServerState)
  : Completion * ServerState * list ShutdownAction :=
  if isShuttingDown st then
    (Returns, st, log DEBUG ["Shutdown already in progress, ignoring"%string; signal])
  else
    let st1 := {| serverStartTime := serverStartTime st;
                  connections := connections st;
                  gamesPlayed := gamesPlayed st;
                  isShuttingDown := true;
                  readyForConnections := readyForConnections st |} in
    let out1 :=
      log DEBUG ["Received " +:+ signal +:+ ". Starting graceful shutdown..."]
      ++ [ServerUnref] in
    match gameTimer with
    | None => (Throws "ReferenceError: gameTimer is not defined", st1, out1)
    | Some timer =>
        (Returns, st1,
         out1
         ++ (if timer then [ClearTimeout] else [])
         ++ flat_map (λ client,
                        if decide (readyState client = OPEN)
                        then [SendSystem (handle client)]
                        else [])
                     clients
         ++ [WssClose])
    end.

(** The signals [SIGTERM] and [SIGINT] arriving one after the other: how each
    call of [gracefulShutdown] ends, and all that the calls do. *)
Fixpoint deliver_signals (DEBUG : bool) (gameTimer : option bool)
  (clients : list Client) (signals : list string) (st : ServerState)
  : ServerState * list Completion * list ShutdownAction :=
  match signals with
  | [] => (st, [], [])
  | signal :: rest =>
      let '(c, st1, out1) := gracefulShutdown DEBUG gameTimer clients signal st in
      let '(st2, cs, out2) := deliver_signals DEBUG gameTimer clients rest st1 in
      (st2, c :: cs, out1 ++ out2)
  end.

(** ** The client page: the hash feed and the countdown ([game.js]) *)

(** The children of the [hash-list] element. *)
Inductive FeedItem : Type :=
  | HashItem (playerName : option string) (hash : string) (leadingZeros : nat)
  | SystemMessage (text : string).

(** [while (hashList.children.length > 20)
       hashList.removeChild(hashList.lastChild);]
    with [fuel] bounding the number of iterations. *)
Fixpoint trim_feed (fuel : nat) (children : list FeedItem) : list FeedItem :=
  match fuel with
  | O => children
  | S fuel' =>
      if 20 <? length children
      then trim_feed fuel' (removelast children)
      else children
  end.

(** [addHashToFeed(hash)]: the new element goes first, then the loop runs.
    Every iteration removes one child, so the number of children is enough
    fuel. *)
Definition addHashToFeed (hashElement : FeedItem) (hashList : list FeedItem)
  : list FeedItem :=
  let children := hashElement :: hashList in
  trim_feed (length children) children.

(** [addSystemMessage(message)]. *)
Definition addSystemMessage (message : string) (hashList : list FeedItem)
  : list FeedItem :=
  SystemMessage message :: hashList.

(** [str.padStart(targetLength, padString)] for a one-character pad. *)
Definition padStart (targetLength : nat) (pad : ascii) (str : string) : string :=
  string_of_list_ascii (replicate (targetLength - String.length str) pad) +:+ str.

(** [updateTimer()], given [this.gameEndTime] and the reading [now] of the
    clock: the new text of the countdown, or [None] when the method only
    stops the interval and leaves the text as it is. *)
Definition updateTimer (gameEndTime now : Z) : option string :=
  let remaining := Z.max 0 (gameEndTime - now) in
  if (remaining =? 0)%Z then None
  else
    let minutes := (remaining / 60000)%Z in
    let seconds := (Z.rem remaining 60000 / 1000)%Z in
    Some (pretty minutes +:+ ":" +:+ padStart 2 "0" (pretty seconds)).

(** The two decimal digits of a number below 100. *)
Definition two_digits (n : Z) : string :=
  String (ascii_of_nat (48 + Z.to_nat (n / 10)))
    (String (ascii_of_nat (48 + Z.to_nat (n mod 10))) EmptyString).

(** ** Notions for the properties of whole runs *)

(** The round phase that a listener infers from the messages sent so far
    ([Some true]: a round is running): [gameStart] is only expected between
    rounds, [gameEnd] and [newHash] only within a round; [None] when a
    message came out of place. *)
Definition phase_step (phase : option bool) (m : ServerMsg) : option bool :=
  match phase, m with
  | Some false, gameStart _ => Some true
  | Some true, gameEnd _ _ => Some false
  | Some true, newHash _ _ _ _ => Some true
  | Some p, joined _ _ _ _ => Some p
  | Some p, playerJoined _ _ _ => Some p
  | Some p, playerLeft _ _ => Some p
  | _, _ => None
  end.

Definition phase_after (out : list ServerMsg) : option bool :=
  fold_left phase_step out (Some false).

(** The [newHash] message that the [tap] handler broadcasts for a
    submission. *)
Definition newHash_of (s : Submission) : ServerMsg :=
  newHash (playerId s) (playerName s) (hash s) (countLeadingZeros (hash s)).

(** The [newHash] messages sent since the last [gameStart]. *)
Definition round_newHashes_step (acc : list ServerMsg) (m : ServerMsg)
  : list ServerMsg :=
  match m with
  | gameStart _ => []
  | newHash _ _ _ _ => acc ++ [m]
  | _ => acc
  end.

Definition round_newHashes (out : list ServerMsg) : list ServerMsg :=
  fold_left round_newHashes_step out [].

(** A submission whose digest is the one the [tap] handler computes from its
    other fields. *)
Definition digest_ok (sha256_hex : string → string) (s : Submission) : Prop :=
  hash s = sha256_hex (playerId s +:+ pretty (timestamp s) +:+ pretty (tapCount s)).

(** The integers that a JavaScript number holds exactly and prints in plain
    decimal notation. *)
Definition safe_integer (n : Z) : Prop := (- 2 ^ 53 < n < 2 ^ 53)%Z.

(** An input whose numbers, where a tap puts them in a digest, are safe
    integers. *)
Definition safe_input (i : Input) : Prop :=
  match i with
  | Message _ now (MsgTap count) => safe_integer now ∧ safe_integer count
  | _ => True
  end.


(** What holds of the server after boot, whatever happens to it. *)
Definition run_invariant (sha256_hex : string → string) (srv : Server) : Prop :=
  duration (game srv) = 120000%Z ∧
  is_Some (startTime (game srv)) ∧
  pending srv = (if isActive (game srv)
                 then [(CbEndGame, 120000%Z)]
                 else [(CbStartNewGame, 10000%Z)]) ∧
  phase_after (output srv) = Some (isActive (game srv)) ∧
  Forall (digest_ok sha256_hex) (hashes (game srv)) ∧
  newHash_of <$> hashes (game srv) ≡ₚ round_newHashes (output srv) ∧
  (isActive (game srv) = true →
   newHash_of <$> hashes (game srv) = round_newHashes (output srv)).

(** * Properties *)

(** ** [countLeadingZeros] *)

Lemma get_length_None (s : string) : String.get (String.length s) s = None.
Proof. induction s as [|c s IH]; simpl; auto. Qed.

Lemma get_lt_is_Some (s : string) (i : nat) :
  i < String.length s → ∃ c, String.get i s = Some c.
Proof.
  revert i; induction s as [|c s IH]; simpl; intros i Hi; [lia|].
  destruct i as [|i]; [eauto|]. apply IH; lia.
Qed.

(** Loop invariant: when the characters of [hash] from index [i] on are
    those of [rest], the loop entered at [i] returns [i] plus the zero prefix
    of [rest]. *)
Lemma countLeadingZeros_loop_suffix (hash rest : string) (i : nat) :
  (∀ j, String.get (i + j) hash = String.get j rest) →
  String.length hash = i + String.length rest →
  countLeadingZeros_loop hash i (String.length rest) = i + zero_prefix rest.
Proof.
  revert i; induction rest as [|c rest IH]; intros i Hget Hlen.
  - simpl in *. lia.
  - cbn [String.length countLeadingZeros_loop zero_prefix].
    generalize (Hget 0). rewrite Nat.add_0_r. intros ->. simpl.
    destruct (Ascii.eqb c "0"%char); [|lia].
    rewrite IH; [lia| |simpl in Hlen; lia].
    intros j. replace (S i + j) with (i + S j) by lia. apply Hget.
Qed.

Lemma countLeadingZeros_zero_prefix (hash : string) :
  countLeadingZeros hash = zero_prefix hash.
Proof.
  unfold countLeadingZeros.
  apply (countLeadingZeros_loop_suffix hash hash 0); auto.
Qed.

Lemma zero_prefix_le (hash : string) : zero_prefix hash ≤ String.length hash.
Proof.
  induction hash as [|c s IH]; simpl; [lia|].
  destruct (Ascii.eqb c "0"%char); lia.
Qed.

Lemma zero_prefix_before (hash : string) (j : nat) :
  j < zero_prefix hash → String.get j hash = Some "0"%char.
Proof.
  revert j; induction hash as [|c s IH]; simpl; intros j Hj; [lia|].
  destruct (Ascii.eqb c "0"%char) eqn:Hc; [|lia].
  apply Ascii.eqb_eq in Hc; subst c.
  destruct j as [|j]; [reflexivity|]. apply IH; lia.
Qed.

Lemma zero_prefix_at (hash : string) :
  zero_prefix hash < String.length hash →
  ∃ c, String.get (zero_prefix hash) hash = Some c ∧ c ≠ "0"%char.
Proof.
  induction hash as [|c s IH]; simpl; intros Hlt; [lia|].
  destruct (Ascii.eqb c "0"%char) eqn:Hc.
  - apply IH; lia.
  - exists c; split; [reflexivity|]. by apply Ascii.eqb_neq.
Qed.


(** ** The stable sort by timestamp *)

Lemma sort_insert_perm {A : Type} (f : A → A → Z) (x : A) (l : list A) :
  sort_insert f x l ≡ₚ x :: l.
Proof.
  induction l as [|y l IH]; simpl; [done|].
  destruct (f y x <? 0)%Z; [|done].
  rewrite IH. apply Permutation_swap.
Qed.

Lemma array_sort_perm {A : Type} (f : A → A → Z) (l : list A) :
  array_sort f l ≡ₚ l.
Proof.
  induction l as [|x l IH]; simpl; [done|].
  by rewrite sort_insert_perm, IH.
Qed.


Lemma sort_insert_sorted (x : Submission) (l : list Submission) :
  StronglySorted le_timestamp l →
  StronglySorted le_timestamp (sort_insert compare_timestamp x l).
Proof.
  induction 1 as [|y l Hl IH Hy]; simpl.
  - repeat constructor.
  - destruct (compare_timestamp y x <? 0)%Z eqn:Hc.
    + apply Z.ltb_lt in Hc. unfold compare_timestamp in Hc.
      constructor; [exact IH|].
      rewrite sort_insert_perm. constructor; [|exact Hy].
      unfold le_timestamp; lia.
    + apply Z.ltb_ge in Hc. unfold compare_timestamp in Hc.
      assert (Hxy : le_timestamp x y) by (unfold le_timestamp; lia).
      constructor; [by constructor|].
      constructor; [exact Hxy|].
      eapply Forall_impl; [exact Hy|].
      unfold le_timestamp in *; intros z Hz; lia.
Qed.

Lemma array_sort_sorted (l : list Submission) :
  StronglySorted le_timestamp (array_sort compare_timestamp l).
Proof.
  induction l as [|x l IH]; simpl; [constructor|].
  by apply sort_insert_sorted.
Qed.

(** Stability: the submissions of any one timestamp keep their relative
    order. *)
Lemma sort_insert_stable (t : Z) (x : Submission) (l : list Submission) :
  filter (λ s, timestamp s = t) (sort_insert compare_timestamp x l)
  = filter (λ s, timestamp s = t) (x :: l).
Proof.
  induction l as [|y l IH]; simpl; [done|].
  destruct (compare_timestamp y x <? 0)%Z eqn:Hc; [|done].
  apply Z.ltb_lt in Hc. unfold compare_timestamp in Hc.
  rewrite filter_cons, IH, !filter_cons.
  repeat case_decide; try done; lia.
Qed.

Lemma array_sort_stable (t : Z) (l : list Submission) :
  filter (λ s, timestamp s = t) (array_sort compare_timestamp l)
  = filter (λ s, timestamp s = t) l.
Proof.
  induction l as [|x l IH]; simpl; [done|].
  by rewrite sort_insert_stable, !filter_cons, IH.
Qed.

(** The result does not depend on the sorting algorithm: a sequence that is
    ordered by timestamp and keeps, for every timestamp, the submissions of
    the original in their order, is the one [array_sort] returns. *)
Lemma stable_sorted_unique (l1 l2 : list Submission) :
  StronglySorted le_timestamp l1 →
  StronglySorted le_timestamp l2 →
  (∀ t, filter (λ s, timestamp s = t) l1 = filter (λ s, timestamp s = t) l2) →
  l1 = l2.
Proof.
  intros Hs1; revert l2.
  induction Hs1 as [|x l1 Hs1 IH Hx]; intros l2 Hs2 Hf.
  - destruct l2 as [|y l2]; [done|].
    specialize (Hf (timestamp y)). rewrite filter_nil, filter_cons in Hf.
    by case_decide.
  - destruct Hs2 as [|y l2 Hs2 Hy].
    { specialize (Hf (timestamp x)). rewrite filter_nil, filter_cons in Hf.
      by case_decide. }
    assert (Hxy : timestamp x = timestamp y).
    { assert (Hin1 : x ∈ y :: l2).
      { eapply (list_elem_of_filter (λ s, timestamp s = timestamp x)).
        rewrite <- Hf, filter_cons. case_decide; [|done].
        apply elem_of_cons; by left. }
      assert (Hin2 : y ∈ x :: l1).
      { eapply (list_elem_of_filter (λ s, timestamp s = timestamp y)).
        rewrite Hf, filter_cons. case_decide; [|done].
        apply elem_of_cons; by left. }
      apply elem_of_cons in Hin1 as [->|Hin1]; [done|].
      apply elem_of_cons in Hin2 as [->|Hin2]; [done|].
      rewrite Forall_forall in Hx, Hy.
      specialize (Hx y Hin2). specialize (Hy x Hin1).
      unfold le_timestamp in *. lia. }
    assert (Heq : x = y).
    { specialize (Hf (timestamp x)). rewrite !filter_cons in Hf.
      repeat case_decide; try done; congruence. }
    subst y. f_equal. apply IH; [done|].
    intros t. specialize (Hf t). rewrite !filter_cons in Hf.
    case_decide; congruence.
Qed.

Lemma array_sort_unique (l sorted : list Submission) :
  StronglySorted le_timestamp sorted →
  (∀ t, filter (λ s, timestamp s = t) sorted = filter (λ s, timestamp s = t) l) →
  sorted = array_sort compare_timestamp l.
Proof.
  intros Hs Hf. apply stable_sorted_unique; [done | apply array_sort_sorted |].
  intros t. by rewrite Hf, array_sort_stable.
Qed.

(** ** The winner scan *)

Lemma zeros_nonneg (h : Submission) : (0 ≤ zeros h)%Z.
Proof. unfold zeros; lia. Qed.

(** The loop run from any pair of locals: either no submission beats
    [maxZeros] and the locals are unchanged, or the winner is the first
    submission that reaches the greatest score of the sequence. *)
Lemma scan_from (l : list Submission) (w0 : option Submission) (m0 : Z) :
  (fold_left scan_step l (w0, m0) = (w0, m0) ∧
   ∀ x, x ∈ l → (zeros x ≤ m0)%Z)
  ∨
  (∃ w i, fold_left scan_step l (w0, m0) = (Some w, zeros w) ∧
          l !! i = Some w ∧ (m0 < zeros w)%Z ∧
          (∀ j x, j < i → l !! j = Some x → (zeros x < zeros w)%Z) ∧
          (∀ x, x ∈ l → (zeros x ≤ zeros w)%Z)).
Proof.
  revert w0 m0; induction l as [|h l IH]; intros w0 m0.
  - left. split; [done|]. intros x Hx. by apply elem_of_nil in Hx.
  - cbn [fold_left].
    assert (Hstep : scan_step (w0, m0) h
                    = if (m0 <? zeros h)%Z then (Some h, zeros h) else (w0, m0))
      by reflexivity.
    rewrite !Hstep; clear Hstep.
    destruct (m0 <? zeros h)%Z eqn:Hlt.
    + apply Z.ltb_lt in Hlt. right.
      destruct (IH (Some h) (zeros h)) as [[Heq Hle]|(w & i & Heq & Hi & Hgt & Hbefore & Hle)].
      * exists h, 0. rewrite Heq. repeat split; auto; try lia.
        intros x Hx. apply elem_of_cons in Hx as [->|Hx]; [lia|auto].
      * exists w, (S i). rewrite Heq. repeat split; auto; try lia.
        -- intros [|j] x Hj Hx; simpl in Hx.
           ++ injection Hx as <-. lia.
           ++ apply (Hbefore j); [lia|done].
        -- intros x Hx. apply elem_of_cons in Hx as [->|Hx]; [lia|auto].
    + apply Z.ltb_ge in Hlt.
      destruct (IH w0 m0) as [[Heq Hle]|(w & i & Heq & Hi & Hgt & Hbefore & Hle)].
      * left. split; [done|].
        intros x Hx. apply elem_of_cons in Hx as [->|Hx]; [lia|auto].
      * right. exists w, (S i). rewrite Heq. repeat split; auto.
        -- intros [|j] x Hj Hx; simpl in Hx.
           ++ injection Hx as <-. lia.
           ++ apply (Hbefore j); [lia|done].
        -- intros x Hx. apply elem_of_cons in Hx as [->|Hx]; [lia|auto].
Qed.

Lemma scan_hashes_nil : scan_hashes [] = (None, (-1)%Z).
Proof. reflexivity. Qed.

Lemma scan_hashes_first_max (l : list Submission) :
  l ≠ [] →
  ∃ w i, scan_hashes l = (Some w, zeros w) ∧ l !! i = Some w ∧
         (∀ j x, j < i → l !! j = Some x → (zeros x < zeros w)%Z) ∧
         (∀ x, x ∈ l → (zeros x ≤ zeros w)%Z).
Proof.
  intros Hne. unfold scan_hashes.
  destruct (scan_from l None (-1)%Z) as [[_ Hle]|(w & i & Heq & Hi & _ & Hbefore & Hle)].
  - destruct l as [|h l]; [done|].
    assert (Hin : h ∈ h :: l) by (apply elem_of_cons; by left).
    pose proof (Hle h Hin). pose proof (zeros_nonneg h). lia.
  - exists w, i. auto.
Qed.

(** ** What the handlers compute *)

Lemma startNewGame_exec (now : Z) (gs : GameState) :
  exec (startNewGame now) gs
  = ({| isActive := true; players := ∅; hashes := [];
        startTime := Some now; duration := duration gs |},
     [Broadcast (gameStart (Some now)); SetTimeout CbEndGame (duration gs)]).
Proof. reflexivity. Qed.

Lemma endGame_exec (gs : GameState) :
  let sorted := array_sort compare_timestamp (hashes gs) in
  exec endGame gs
  = ({| isActive := false; players := players gs; hashes := sorted;
        startTime := startTime gs; duration := duration gs |},
     [Broadcast (gameEnd (winner_object gs (scan_hashes sorted).1
                                           (scan_hashes sorted).2) sorted);
      SetTimeout CbStartNewGame 10000]).
Proof.
  unfold endGame; unfold_handler.
  destruct (scan_hashes (array_sort compare_timestamp (hashes gs))) as [[w|] m];
    reflexivity.
Qed.

Lemma onClose_exec (id : string) (gs : GameState) :
  exec (onClose id) gs
  = (set_players (delete id (players gs)) gs,
     [Broadcast (playerLeft id (size (delete id (players gs))))]).
Proof. reflexivity. Qed.

Lemma onMessage_join_exec (sha256_hex : string → string) (id : string)
  (now : Z) (name : string) (gs : GameState) :
  exec (onMessage sha256_hex id now (MsgJoin name)) gs
  = (set_players (<[id := name]> (players gs)) gs,
     [Send (joined id (isActive gs) (startTime gs) (duration gs));
      Broadcast (playerJoined id name (size (<[id := name]> (players gs))))]).
Proof. reflexivity. Qed.

Lemma onMessage_tap_active_exec (sha256_hex : string → string) (id : string)
  (now count : Z) (gs : GameState) :
  isActive gs = true →
  let h := sha256_hex (id +:+ pretty now +:+ pretty count) in
  exec (onMessage sha256_hex id now (MsgTap count)) gs
  = (set_hashes (hashes gs ++ [ {| playerId := id;
                                   playerName := players gs !! id;
                                   hash := h; timestamp := now;
                                   tapCount := count |} ]) gs,
     [Broadcast (newHash id (players gs !! id) h (countLeadingZeros h))]).
Proof. intros Hact. unfold onMessage; unfold_handler. rewrite Hact. reflexivity. Qed.

Lemma onMessage_tap_inactive (sha256_hex : string → string) (id : string)
  (now count : Z) (gs : GameState) :
  isActive gs = false →
  onMessage sha256_hex id now (MsgTap count) gs = (tt, gs, []).
Proof. intros Hact. unfold onMessage; unfold_handler. rewrite Hact. reflexivity. Qed.

(** ** The claims *)

(** C1: the winner that [endGame] broadcasts is the result of the single
    scan over the timestamp-sorted submissions; on a non-empty sequence the
    scan returns the submission at the first index whose leading-zero count
    is strictly greater than every count before it and at least every count
    of the sequence, so that ties go to the earliest such submission; for
    counts [2; 5; 5; 3] it is the submission at index 1. *)
Theorem endGame_winner_first_max :
  (∀ gs : GameState,
     let sorted := array_sort compare_timestamp (hashes gs) in
     (exec endGame gs).2
     = [Broadcast (gameEnd (winner_object gs (scan_hashes sorted).1
                                             (scan_hashes sorted).2) sorted);
        SetTimeout CbStartNewGame 10000]) ∧
  (∀ l : list Submission, l ≠ [] →
     ∃ w i, scan_hashes l = (Some w, zeros w) ∧ l !! i = Some w ∧
            (∀ j x, j < i → l !! j = Some x → (zeros x < zeros w)%Z) ∧
            (∀ x, x ∈ l → (zeros x ≤ zeros w)%Z)) ∧
  (zeros <$> tie_break_round = [2; 5; 5; 3]%Z ∧
   array_sort compare_timestamp tie_break_round = tie_break_round ∧
   (scan_hashes tie_break_round).1 = tie_break_round !! 1 ∧
   (scan_hashes tie_break_round).1 ≠ tie_break_round !! 2).
Proof.
  split; [|split].
  - intros gs sorted. subst sorted. by rewrite endGame_exec.
  - apply scan_hashes_first_max.
  - vm_compute. repeat split; congruence.
Qed.

(** C2: [countLeadingZeros] returns the index of the first character that is
    not ['0'], or the length of the string when there is none; the result
    lies between 0 and the length; ["0003ab"] gives 3, ["000000"] gives 6 and
    ["abc"] gives 0. *)
Theorem countLeadingZeros_first_nonzero :
  (∀ hash : string,
     countLeadingZeros hash ≤ String.length hash ∧
     (∀ j, j < countLeadingZeros hash → String.get j hash = Some "0"%char) ∧
     (countLeadingZeros hash < String.length hash →
      ∃ c, String.get (countLeadingZeros hash) hash = Some c ∧ c ≠ "0"%char)) ∧
  countLeadingZeros "0003ab" = 3 ∧
  countLeadingZeros "000000" = 6 ∧
  countLeadingZeros "abc" = 0.
Proof.
  split; [|by vm_compute].
  intros hash. rewrite countLeadingZeros_zero_prefix.
  split; [apply zero_prefix_le|].
  split; [apply zero_prefix_before | apply zero_prefix_at].
Qed.

(** C3: a tap received while no round is active changes nothing in the game
    state and has no effect: no submission is appended, nothing is broadcast
    or sent, and the handler returns normally. *)
Theorem tap_inactive_noop (sha256_hex : string → string) (id : string)
  (now count : Z) (gs : GameState) :
  isActive gs = false →
  onMessage sha256_hex id now (MsgTap count) gs = (tt, gs, []).
Proof. apply onMessage_tap_inactive. Qed.

(** C4: [endGame] replaces the submission sequence by its stable sort by
    timestamp and broadcasts that sequence as [allHashes]: it is ordered by
    ascending timestamp, it is a permutation of the recorded submissions, and
    the submissions of any one timestamp keep their insertion order. *)
Theorem endGame_sorts_by_timestamp (gs : GameState) :
  ∃ sorted : list Submission,
    hashes (exec endGame gs).1 = sorted ∧
    (∃ w, (exec endGame gs).2
          = [Broadcast (gameEnd w sorted); SetTimeout CbStartNewGame 10000]) ∧
    StronglySorted (λ a b, (timestamp a ≤ timestamp b)%Z) sorted ∧
    sorted ≡ₚ hashes gs ∧
    (∀ t : Z, filter (λ s, timestamp s = t) sorted
              = filter (λ s, timestamp s = t) (hashes gs)).
Proof.
  exists (array_sort compare_timestamp (hashes gs)).
  rewrite endGame_exec. cbn.
  split; [done|]. split; [eauto|].
  split; [apply array_sort_sorted|].
  split; [apply array_sort_perm | intros t; apply array_sort_stable].
Qed.

(** C6: when a round ends with no submission, the [gameEnd] message carries
    no winner ([null]) and an empty [allHashes]; this is the case for a round
    that is started and ends without any tap. *)
Theorem endGame_no_submissions :
  (∀ gs : GameState, hashes gs = [] →
     (exec endGame gs).2
     = [Broadcast (gameEnd None []); SetTimeout CbStartNewGame 10000]) ∧
  (∀ (now : Z) (gs : GameState),
     (exec endGame (exec (startNewGame now) gs).1).2
     = [Broadcast (gameEnd None []); SetTimeout CbStartNewGame 10000]).
Proof.
  split.
  - intros gs Hnil. rewrite endGame_exec, Hnil. reflexivity.
  - intros now gs. reflexivity.
Qed.

(** ** The timer chain *)

Lemma run_handler_eq (m : M unit) (timers : list (Callback * Z)) (srv : Server)
  (gs : GameState) (out : list Effect) :
  exec m (game srv) = (gs, out) →
  run_handler m timers srv
  = {| game := gs; pending := timers ++ timers_of out;
       output := output srv ++ messages_of out |}.
Proof. unfold run_handler. by intros ->. Qed.

Lemma boot_one_timer (now0 : Z) : one_timer (boot now0).
Proof. left. split; [reflexivity|]. by exists 120000%Z. Qed.

Lemma step_one_timer (sha256_hex : string → string) (srv : Server) (i : Input) :
  one_timer srv → one_timer (step sha256_hex srv i).
Proof.
  intros Hinv. destruct i as [k now|id now data|id]; cbn [step].
  - destruct k as [|k].
    + destruct Hinv as [[Hact [d Hp]]|[Hact [d Hp]]]; rewrite Hp;
        cbn -[run_handler].
      * erewrite run_handler_eq by apply endGame_exec.
        right. split; [reflexivity|]. by exists 10000%Z.
      * erewrite run_handler_eq by apply startNewGame_exec.
        left. split; [reflexivity|]. by exists (duration (game srv)).
    + assert (Hnone : pending srv !! S k = None).
      { destruct Hinv as [[_ [d ->]]|[_ [d ->]]]; apply lookup_nil. }
      by rewrite Hnone.
  - destruct data as [name|count|].
    + erewrite run_handler_eq by apply onMessage_join_exec.
      cbn. rewrite app_nil_r. exact Hinv.
    + destruct (isActive (game srv)) eqn:Hact.
      * erewrite run_handler_eq by (by apply onMessage_tap_active_exec).
        cbn. rewrite app_nil_r.
        destruct Hinv as [[_ Hp]|[Hact' _]]; [by left | congruence].
      * erewrite run_handler_eq
          by (unfold exec; by rewrite onMessage_tap_inactive).
        cbn. rewrite !app_nil_r. by destruct srv.
    + erewrite run_handler_eq by reflexivity.
      cbn. rewrite !app_nil_r. by destruct srv.
  - erewrite run_handler_eq by apply onClose_exec.
    cbn. rewrite app_nil_r. exact Hinv.
Qed.

Lemma run_one_timer (sha256_hex : string → string) (now0 : Z)
  (inputs : list Input) :
  one_timer (run sha256_hex now0 inputs).
Proof.
  unfold run. generalize (boot_one_timer now0). generalize (boot now0).
  induction inputs as [|i inputs IH]; intros srv Hinv; cbn; [done|].
  apply IH, step_one_timer, Hinv.
Qed.

(** ** Round start (C5) *)

(** C5, counterexample: called on a round in progress, [startNewGame] is not
    a no-op: it empties the roster and the submission sequence, resets the
    start time, broadcasts [gameStart] and schedules one more [endGame];
    called a second time right after boot it leaves two [endGame] timers
    pending. *)
Lemma startNewGame_while_active_restarts :
  isActive round_in_progress = true ∧
  exec (startNewGame 5000) round_in_progress ≠ (round_in_progress, []) ∧
  exec (startNewGame 5000) round_in_progress
  = ({| isActive := true; players := ∅; hashes := [];
        startTime := Some 5000%Z; duration := 120000 |},
     [Broadcast (gameStart (Some 5000%Z)); SetTimeout CbEndGame 120000]) ∧
  pending (run_handler (startNewGame 5000) (pending (boot 1000)) (boot 1000))
  = [(CbEndGame, 120000%Z); (CbEndGame, 120000%Z)].
Proof.
  split; [reflexivity|]. split; [|split; reflexivity].
  rewrite startNewGame_exec. intros Heq. discriminate Heq.
Qed.

(** C5, amended: [startNewGame] has no guard. Called while a round is
    active it restarts the round in place: the flag stays set, the roster and
    the submissions are emptied, the start time is reset, [gameStart] is
    broadcast and one more [endGame] is scheduled. The server itself never
    does so: after boot, whatever timers fire and whatever the connections
    send, exactly one timer is pending, [endGame] while a round is active and
    [startNewGame] only while none is. *)
Theorem startNewGame_unguarded_single_chain :
  (∀ (now : Z) (gs : GameState), isActive gs = true →
     exec (startNewGame now) gs
     = ({| isActive := true; players := ∅; hashes := [];
           startTime := Some now; duration := duration gs |},
        [Broadcast (gameStart (Some now));
         SetTimeout CbEndGame (duration gs)])) ∧
  (∀ (sha256_hex : string → string) (now0 : Z) (inputs : list Input),
     let srv := run sha256_hex now0 inputs in
     (isActive (game srv) = true ∧ ∃ d, pending srv = [(CbEndGame, d)]) ∨
     (isActive (game srv) = false ∧ ∃ d, pending srv = [(CbStartNewGame, d)])).
Proof.
  split.
  - intros now gs _. apply startNewGame_exec.
  - intros sha256_hex now0 inputs. apply run_one_timer.
Qed.

(** ** Player removal (C8) *)

(** C8, counterexample: closing the connection of the only player twice
    broadcasts [playerLeft] twice, with the same count; closing a connection
    that never joined broadcasts [playerLeft] with the count unchanged. *)
Lemma onClose_twice_broadcasts_twice :
  let gs1 := (exec (onClose "p1") round_in_progress).1 in
  (exec (onClose "p1") round_in_progress).2 = [Broadcast (playerLeft "p1" 0)] ∧
  (exec (onClose "p1") gs1).2 = [Broadcast (playerLeft "p1" 0)] ∧
  (exec (onClose "p1") gs1).2 ≠ [] ∧
  size (players round_in_progress) = 1 ∧
  (exec (onClose "p2") round_in_progress).2 = [Broadcast (playerLeft "p2" 1)].
Proof.
  cbv zeta. split; [by vm_compute|]. split; [by vm_compute|].
  split; [|split; by vm_compute].
  rewrite onClose_exec. cbn. discriminate.
Qed.

(** C8, amended: removal is idempotent on the game state only. The first
    call deletes the roster entry of the identity, if any, and touches
    nothing else; a second call leaves the state as it is. Every call, the
    second included, broadcasts [playerLeft] with the roster size after the
    call: one less than before when the identity was on the roster, the same
    as before otherwise. *)
Theorem onClose_idempotent_on_state (id : string) (gs : GameState) :
  let gs1 := (exec (onClose id) gs).1 in
  gs1 = set_players (delete id (players gs)) gs ∧
  (exec (onClose id) gs1).1 = gs1 ∧
  (exec (onClose id) gs).2 = [Broadcast (playerLeft id (size (players gs1)))] ∧
  (exec (onClose id) gs1).2 = [Broadcast (playerLeft id (size (players gs1)))] ∧
  (is_Some (players gs !! id) → size (players gs) = S (size (players gs1))) ∧
  (players gs !! id = None → size (players gs1) = size (players gs)).
Proof.
  cbv zeta. rewrite !onClose_exec. cbn.
  rewrite delete_delete_eq.
  repeat split.
  - intros [name Hname].
    rewrite map_size_delete, Hname.
    assert (size (players gs) ≠ 0); [|lia].
    apply map_size_non_empty_iff. intros Hempty.
    by rewrite Hempty, lookup_empty in Hname.
  - intros Hnone. by apply map_size_delete_None.
Qed.

(** ** The name reported for the winner (C7) *)

Lemma scan_hashes_singleton (h : Submission) :
  scan_hashes [h] = (Some h, zeros h).
Proof.
  unfold scan_hashes; cbn. fold (zeros h).
  pose proof (zeros_nonneg h).
  destruct (Z.ltb_spec (-1) (zeros h)); [done | lia].
Qed.

Lemma run_snoc (sha256_hex : string → string) (now0 : Z) (inputs : list Input)
  (i : Input) :
  run sha256_hex now0 (inputs ++ [i])
  = step sha256_hex (run sha256_hex now0 inputs) i.
Proof. unfold run. by rewrite fold_left_app. Qed.

Lemma fire_endGame (sha256_hex : string → string) (srv : Server) (now d : Z) :
  pending srv = [(CbEndGame, d)] →
  let sorted := array_sort compare_timestamp (hashes (game srv)) in
  output (step sha256_hex srv (Fire 0 now))
  = output srv ++
    [gameEnd (winner_object (game srv) (scan_hashes sorted).1
                                        (scan_hashes sorted).2) sorted].
Proof.
  intros Hp sorted. cbn [step]. rewrite Hp. cbn -[run_handler].
  erewrite run_handler_eq by apply endGame_exec. reflexivity.
Qed.

(** C7: the [winner] object of [gameEnd] takes its [playerName] from the
    roster as it is when the round ends, not from the winning submission.
    A player who joins as "Alice", taps once and disconnects before the end
    of the round wins it: [allHashes] holds the submission with the name
    "Alice", the [winner] object has no name. If the player instead joins a
    second time as "Bob" after the tap, the [winner] object says "Bob". *)
Theorem endGame_winner_name_from_roster :
  (∀ (gs : GameState) (w : Submission) (m : Z),
     scan_hashes (array_sort compare_timestamp (hashes gs)) = (Some w, m) →
     (exec endGame gs).2
     = [Broadcast (gameEnd
          (Some {| winner_playerId := playerId w;
                   winner_playerName := players gs !! playerId w;
                   winner_hash := hash w;
                   winner_leadingZeros := m |})
          (array_sort compare_timestamp (hashes gs)));
        SetTimeout CbStartNewGame 10000]) ∧
  (∀ sha256_hex : string → string,
     let srv := run sha256_hex 1000
                  [Message "p1" 1100 (MsgJoin "Alice");
                   Message "p1" 1200 (MsgTap 1);
                   Close "p1";
                   Fire 0 121000] in
     ∃ w sub, last (output srv) = Some (gameEnd (Some w) [sub]) ∧
              winner_playerId w = playerId sub ∧
              winner_hash w = hash sub ∧
              playerName sub = Some "Alice"%string ∧
              winner_playerName w = None) ∧
  (∀ sha256_hex : string → string,
     let srv := run sha256_hex 1000
                  [Message "p1" 1100 (MsgJoin "Alice");
                   Message "p1" 1200 (MsgTap 1);
                   Message "p1" 1300 (MsgJoin "Bob");
                   Fire 0 121000] in
     ∃ w sub, last (output srv) = Some (gameEnd (Some w) [sub]) ∧
              winner_playerId w = playerId sub ∧
              winner_hash w = hash sub ∧
              playerName sub = Some "Alice"%string ∧
              winner_playerName w = Some "Bob"%string).
Proof.
  split; [|split].
  - intros gs w m Hscan. rewrite endGame_exec, Hscan. reflexivity.
  - intros sha256_hex srv. subst srv.
    change [Message "p1" 1100 (MsgJoin "Alice"); Message "p1" 1200 (MsgTap 1);
            Close "p1"; Fire 0 121000]
      with ([Message "p1" 1100 (MsgJoin "Alice"); Message "p1" 1200 (MsgTap 1);
             Close "p1"] ++ [Fire 0 121000]).
    rewrite run_snoc.
    set (srv := run _ _ _).
    assert (Hp : pending srv = [(CbEndGame, 120000%Z)]) by reflexivity.
    rewrite (fire_endGame _ _ _ _ Hp), last_snoc.
    assert (Hh : hashes (game srv)
                 = [ {| playerId := "p1"; playerName := Some "Alice"%string;
                        hash := sha256_hex "p112001";
                        timestamp := 1200; tapCount := 1 |} ])
      by (vm_compute; reflexivity).
    rewrite Hh. cbn [array_sort sort_insert]. rewrite scan_hashes_singleton.
    eexists _, _. split; [reflexivity|]. by vm_compute.
  - intros sha256_hex srv. subst srv.
    change [Message "p1" 1100 (MsgJoin "Alice"); Message "p1" 1200 (MsgTap 1);
            Message "p1" 1300 (MsgJoin "Bob"); Fire 0 121000]
      with ([Message "p1" 1100 (MsgJoin "Alice"); Message "p1" 1200 (MsgTap 1);
             Message "p1" 1300 (MsgJoin "Bob")] ++ [Fire 0 121000]).
    rewrite run_snoc.
    set (srv := run _ _ _).
    assert (Hp : pending srv = [(CbEndGame, 120000%Z)]) by reflexivity.
    rewrite (fire_endGame _ _ _ _ Hp), last_snoc.
    assert (Hh : hashes (game srv)
                 = [ {| playerId := "p1"; playerName := Some "Alice"%string;
                        hash := sha256_hex "p112001";
                        timestamp := 1200; tapCount := 1 |} ])
      by (vm_compute; reflexivity).
    rewrite Hh. cbn [array_sort sort_insert]. rewrite scan_hashes_singleton.
    eexists _, _. split; [reflexivity|]. by vm_compute.
Qed.

(** ** Tapping without joining (C9) *)

(** C9: a tap from a connection with no roster entry, while a round is
    active, appends a submission and broadcasts [newHash], both without
    display name, and leaves the roster alone; the submission takes part in
    the winner computation like any other: when its leading-zero count is
    strictly greater than that of every earlier submission of the round,
    [endGame] run next reports it as the winner, again without a name. *)
Theorem tap_without_join (sha256_hex : string → string) (id : string)
  (now count : Z) (gs : GameState) :
  isActive gs = true →
  players gs !! id = None →
  let h := sha256_hex (id +:+ pretty now +:+ pretty count) in
  let sub := {| playerId := id; playerName := None; hash := h;
                timestamp := now; tapCount := count |} in
  let gs1 := (exec (onMessage sha256_hex id now (MsgTap count)) gs).1 in
  hashes gs1 = hashes gs ++ [sub] ∧
  players gs1 = players gs ∧
  (exec (onMessage sha256_hex id now (MsgTap count)) gs).2
  = [Broadcast (newHash id None h (countLeadingZeros h))] ∧
  ((∀ x, x ∈ hashes gs → (zeros x < zeros sub)%Z) →
   (exec endGame gs1).2
   = [Broadcast (gameEnd
        (Some {| winner_playerId := id; winner_playerName := None;
                 winner_hash := h; winner_leadingZeros := zeros sub |})
        (array_sort compare_timestamp (hashes gs ++ [sub])));
      SetTimeout CbStartNewGame 10000]).
Proof.
  intros Hact Hnone h sub gs1. subst gs1.
  rewrite (onMessage_tap_active_exec _ _ _ _ _ Hact), Hnone.
  fold h. fold sub. cbn [fst snd hashes players set_hashes].
  repeat split.
  intros Hbest. rewrite endGame_exec. cbn [snd].
  change (hashes (set_hashes (hashes gs ++ [sub]) gs)) with (hashes gs ++ [sub]).
  set (sorted := array_sort compare_timestamp (hashes gs ++ [sub])).
  assert (Hperm : sorted ≡ₚ hashes gs ++ [sub]) by apply array_sort_perm.
  assert (Hsub : sub ∈ sorted).
  { rewrite Hperm. apply elem_of_app. right. by apply list_elem_of_singleton. }
  destruct (scan_hashes_first_max sorted) as (w & i & Hscan & Hi & _ & Hle).
  { intros Hnil. rewrite Hnil in Hsub. by apply elem_of_nil in Hsub. }
  assert (Hw : w = sub).
  { apply list_elem_of_lookup_2 in Hi. rewrite Hperm in Hi.
    apply elem_of_app in Hi as [Hi|Hi].
    - specialize (Hbest w Hi). specialize (Hle sub Hsub). lia.
    - by apply list_elem_of_singleton in Hi. }
  subst w. rewrite Hscan. cbn. by rewrite Hnone.
Qed.

(** ** What the end of a round leaves in place (C10) *)





(** ** The statements at concrete inputs *)

Lemma endGame_winner_first_max_witness :
  tie_break_round ≠ [] ∧
  ∃ w i, scan_hashes tie_break_round = (Some w, zeros w) ∧
         tie_break_round !! i = Some w ∧
         (∀ j x, j < i → tie_break_round !! j = Some x → (zeros x < zeros w)%Z) ∧
         (∀ x, x ∈ tie_break_round → (zeros x ≤ zeros w)%Z).
Proof.
  split; [discriminate|].
  apply (proj1 (proj2 endGame_winner_first_max) tie_break_round).
  discriminate.
Defined.

Lemma countLeadingZeros_first_nonzero_witness :
  2 < countLeadingZeros "0003ab" ∧ String.get 2 "0003ab" = Some "0"%char.
Proof.
  split; [vm_compute; lia|].
  apply (proj1 (proj2 (proj1 countLeadingZeros_first_nonzero "0003ab"))).
  vm_compute; lia.
Defined.

Lemma tap_inactive_noop_witness :
  isActive initial_gameState = false ∧
  onMessage example_digest "p1" 1000 (MsgTap 1) initial_gameState
  = (tt, initial_gameState, []).
Proof.
  split; [reflexivity|].
  apply (tap_inactive_noop example_digest "p1" 1000 1 initial_gameState).
  reflexivity.
Defined.

Lemma startNewGame_unguarded_single_chain_witness :
  isActive round_in_progress = true ∧
  exec (startNewGame 5000) round_in_progress
  = ({| isActive := true; players := ∅; hashes := [];
        startTime := Some 5000%Z; duration := duration round_in_progress |},
     [Broadcast (gameStart (Some 5000%Z));
      SetTimeout CbEndGame (duration round_in_progress)]).
Proof.
  split; [reflexivity|].
  apply (proj1 startNewGame_unguarded_single_chain 5000%Z round_in_progress).
  reflexivity.
Defined.

Lemma endGame_no_submissions_witness :
  hashes initial_gameState = [] ∧
  (exec endGame initial_gameState).2
  = [Broadcast (gameEnd None []); SetTimeout CbStartNewGame 10000].
Proof.
  split; [reflexivity|].
  apply (proj1 endGame_no_submissions initial_gameState).
  reflexivity.
Defined.

Lemma endGame_winner_name_from_roster_witness :
  scan_hashes (array_sort compare_timestamp (hashes round_in_progress))
  = (hashes round_in_progress !! 0, 1%Z) ∧
  (exec endGame round_in_progress).2
  = [Broadcast (gameEnd
       (Some {| winner_playerId := "p1";
                winner_playerName := players round_in_progress !! "p1";
                winner_hash := "0a1b";
                winner_leadingZeros := 1 |})
       (array_sort compare_timestamp (hashes round_in_progress)));
     SetTimeout CbStartNewGame 10000].
Proof.
  split; [reflexivity|].
  apply (proj1 endGame_winner_name_from_roster round_in_progress
           {| playerId := "p1"; playerName := Some "Alice"%string;
              hash := "0a1b"; timestamp := 1500; tapCount := 1 |} 1%Z).
  reflexivity.
Defined.

Lemma onClose_idempotent_on_state_witness :
  players round_in_progress !! "p1" = Some "Alice"%string ∧
  size (players round_in_progress)
  = S (size (players (exec (onClose "p1") round_in_progress).1)).
Proof.
  split; [reflexivity|].
  apply (proj1 (proj2 (proj2 (proj2 (proj2
           (onClose_idempotent_on_state "p1" round_in_progress)))))).
  exists "Alice"%string. reflexivity.
Defined.

Lemma tap_without_join_witness :
  let gs := (exec (startNewGame 1000) initial_gameState).1 in
  isActive gs = true ∧
  players gs !! "p9" = None ∧
  (exec (onMessage example_digest "p9" 1100 (MsgTap 1)) gs).2
  = [Broadcast (newHash "p9" None
                  (example_digest ("p9" +:+ pretty 1100%Z +:+ pretty 1%Z))
                  (countLeadingZeros
                     (example_digest ("p9" +:+ pretty 1100%Z +:+ pretty 1%Z))))].
Proof.
  cbv zeta. split; [reflexivity|]. split; [reflexivity|].
  destruct (tap_without_join example_digest "p9" 1100 1
              (exec (startNewGame 1000) initial_gameState).1)
    as (_ & _ & Hout & _); [reflexivity | reflexivity | exact Hout].
Defined.


(** * Further properties of the server *)

(** ** An invariant of all runs *)

Lemma boot_run_invariant (sha256_hex : string → string) (now0 : Z) :
  run_invariant sha256_hex (boot now0).
Proof.
  repeat split; cbn; eauto.
Qed.

Lemma step_run_invariant (sha256_hex : string → string) (srv : Server)
  (i : Input) :
  run_invariant sha256_hex srv → run_invariant sha256_hex (step sha256_hex srv i).
Proof.
  intros Hinv.
  assert (Hnone : ∀ k, pending srv !! S k = None).
  { intros k. destruct Hinv as (_ & _ & -> & _).
    by destruct (isActive (game srv)). }
  assert (Hsame : ∀ out, timers_of out = [] → messages_of out = [] →
            run_invariant sha256_hex
              {| game := game srv; pending := pending srv ++ timers_of out;
                 output := output srv ++ messages_of out |}).
  { intros out -> ->. rewrite !app_nil_r. by destruct srv. }
  destruct Hinv as (Hdur & Hstart & Hpend & Hphase & Hdig & Hperm & Heq).
  destruct i as [k now|id now data|id]; cbn [step].
  - destruct k as [|k]; [|by rewrite Hnone].
    rewrite Hpend. destruct (isActive (game srv)) eqn:Hact; cbn -[run_handler].
    + erewrite run_handler_eq by apply endGame_exec.
      unfold run_invariant, phase_after, round_newHashes in *.
      cbn -[array_sort scan_hashes]. rewrite !fold_left_app, Hphase.
      cbn -[array_sort scan_hashes].
      repeat split; auto; try discriminate; by rewrite array_sort_perm.
    + erewrite run_handler_eq by apply startNewGame_exec.
      unfold run_invariant, phase_after, round_newHashes in *.
      cbn. rewrite !fold_left_app, Hphase, Hdur. cbn.
      repeat split; eauto.
  - destruct data as [name|count|].
    + erewrite run_handler_eq by apply onMessage_join_exec.
      unfold run_invariant, phase_after, round_newHashes in *.
      cbn. rewrite !fold_left_app, Hphase, app_nil_r. cbn.
      destruct (isActive (game srv)); repeat split; auto.
    + destruct (isActive (game srv)) eqn:Hact.
      * erewrite run_handler_eq by (by apply onMessage_tap_active_exec).
        unfold run_invariant, phase_after, round_newHashes in *.
        cbn. rewrite !fold_left_app, Hphase, app_nil_r, Hact. cbn.
        rewrite fmap_app, (Heq eq_refl). cbn.
        repeat split; auto.
        apply Forall_app; split; [exact Hdig|].
        constructor; [reflexivity | constructor].
      * erewrite run_handler_eq
          by (unfold exec; by rewrite onMessage_tap_inactive).
        by apply Hsame.
    + erewrite run_handler_eq by reflexivity. by apply Hsame.
  - erewrite run_handler_eq by apply onClose_exec.
    unfold run_invariant, phase_after, round_newHashes in *.
    cbn. rewrite !fold_left_app, Hphase, app_nil_r. cbn.
    destruct (isActive (game srv)); repeat split; auto.
Qed.

Lemma run_run_invariant (sha256_hex : string → string) (now0 : Z)
  (inputs : list Input) :
  run_invariant sha256_hex (run sha256_hex now0 inputs).
Proof.
  unfold run. generalize (boot_run_invariant sha256_hex now0).
  generalize (boot now0).
  induction inputs as [|i inputs IH]; intros srv Hinv; cbn; [done|].
  apply IH, step_run_invariant, Hinv.
Qed.

(** ** Properties of all runs *)

(** X1: after boot the round is always 120000 ms long and the pause
    10000 ms: whatever happens, the one pending timer is [endGame] with delay
    120000 while a round is active and [startNewGame] with delay 10000
    otherwise; a connection that joins is told a start time that is not
    [null] and the duration 120000. *)
Theorem run_round_timing (sha256_hex : string → string) (now0 : Z)
  (inputs : list Input) (id : string) (now : Z) (name : string) :
  let srv := run sha256_hex now0 inputs in
  pending srv = (if isActive (game srv)
                 then [(CbEndGame, 120000%Z)]
                 else [(CbStartNewGame, 10000%Z)]) ∧
  ∃ t count,
    (exec (onMessage sha256_hex id now (MsgJoin name)) (game srv)).2
    = [Send (joined id (isActive (game srv)) (Some t) 120000);
       Broadcast (playerJoined id name count)].
Proof.
  intros srv.
  destruct (run_run_invariant sha256_hex now0 inputs)
    as (Hdur & [t Hstart] & Hpend & _).
  fold srv in Hdur, Hstart, Hpend.
  split; [exact Hpend|].
  exists t, (size (<[id:=name]> (players (game srv)))).
  rewrite onMessage_join_exec. cbn. by rewrite Hstart, Hdur.
Qed.

(** X2: the messages of a run follow the round protocol: [gameStart] and
    [gameEnd] alternate, starting with [gameStart], every [newHash] comes
    between a [gameStart] and the next [gameEnd], and the phase that a
    listener infers from the messages is the value of [isActive]. *)
Theorem run_output_follows_phases (sha256_hex : string → string) (now0 : Z)
  (inputs : list Input) :
  phase_after (output (run sha256_hex now0 inputs))
  = Some (isActive (game (run sha256_hex now0 inputs))).
Proof. apply run_run_invariant. Qed.

Lemma step_safe_fields (sha256_hex : string → string) (srv : Server)
  (i : Input) :
  safe_input i →
  Forall (λ s, safe_integer (timestamp s) ∧ safe_integer (tapCount s))
         (hashes (game srv)) →
  Forall (λ s, safe_integer (timestamp s) ∧ safe_integer (tapCount s))
         (hashes (game (step sha256_hex srv i))).
Proof.
  intros Hi Hs. destruct i as [k now|id now data|id]; cbn [step].
  - destruct (pending srv !! k) as [[[|] d]|]; [| |done]; cbn -[run_handler].
    + erewrite run_handler_eq by apply endGame_exec.
      cbn -[array_sort]. by rewrite array_sort_perm.
    + erewrite run_handler_eq by apply startNewGame_exec. constructor.
  - destruct data as [name|count|].
    + by erewrite run_handler_eq by apply onMessage_join_exec.
    + destruct (isActive (game srv)) eqn:Hact.
      * erewrite run_handler_eq by (by apply onMessage_tap_active_exec).
        cbn. apply Forall_app. split; [done|]. by constructor.
      * by erewrite run_handler_eq
          by (unfold exec; by rewrite onMessage_tap_inactive).
    + by erewrite run_handler_eq by reflexivity.
  - by erewrite run_handler_eq by apply onClose_exec.
Qed.

Lemma run_safe_fields (sha256_hex : string → string) (now0 : Z)
  (inputs : list Input) :
  Forall safe_input inputs →
  Forall (λ s, safe_integer (timestamp s) ∧ safe_integer (tapCount s))
         (hashes (game (run sha256_hex now0 inputs))).
Proof.
  unfold run.
  assert (Hboot : Forall (λ s, safe_integer (timestamp s) ∧ safe_integer (tapCount s))
                         (hashes (game (boot now0)))) by constructor.
  revert Hboot. generalize (boot now0).
  intros srv Hsrv Hin; revert srv Hsrv.
  induction Hin as [|i inputs Hi Hin IH]; intros srv Hsrv; cbn [fold_left].
  - done.
  - by apply IH, step_safe_fields.
Qed.

(** X3: in a run where the tap counts received and the clock readings at
    the taps are safe integers, every submission that the server holds has a
    timestamp and a tap count that are safe integers, and carries the digest
    of its own player id, timestamp and tap count written one after the
    other in decimal notation. *)
Theorem run_digests_match_fields (sha256_hex : string → string) (now0 : Z)
  (inputs : list Input) :
  Forall safe_input inputs →
  Forall (λ s, safe_integer (timestamp s) ∧ safe_integer (tapCount s) ∧
               hash s = sha256_hex (playerId s +:+ pretty (timestamp s)
                                      +:+ pretty (tapCount s)))
         (hashes (game (run sha256_hex now0 inputs))).
Proof.
  intros Hin.
  pose proof (run_safe_fields sha256_hex now0 inputs Hin) as Hsafe.
  destruct (run_run_invariant sha256_hex now0 inputs)
    as (_ & _ & _ & _ & Hdig & _).
  rewrite Forall_forall in Hsafe, Hdig |- *.
  intros s Hs. destruct (Hsafe s Hs) as [H1 H2].
  split; [exact H1|]. split; [exact H2 | exact (Hdig s Hs)].
Qed.

(** X4: when the end-of-round timer fires during a round, the [allHashes] of
    the [gameEnd] message are, up to their order, exactly the taps that were
    broadcast as [newHash] since the [gameStart] of that round, with the same
    player id, name, digest and leading-zero count. *)
Theorem run_allHashes_are_round_taps (sha256_hex : string → string)
  (now0 : Z) (inputs : list Input) (now : Z) :
  let srv := run sha256_hex now0 inputs in
  isActive (game srv) = true →
  ∃ w all,
    output (step sha256_hex srv (Fire 0 now)) = output srv ++ [gameEnd w all] ∧
    newHash_of <$> all ≡ₚ round_newHashes (output srv).
Proof.
  intros srv Hact.
  destruct (run_run_invariant sha256_hex now0 inputs)
    as (_ & _ & Hpend & _ & _ & Hperm & _).
  fold srv in Hpend, Hperm. rewrite Hact in Hpend.
  eexists _, _. split; [by apply (fire_endGame _ _ _ _ Hpend)|].
  by rewrite array_sort_perm.
Qed.

(** ** Joining *)

(** X5: a join records the name under the identity of the connection and
    touches no other roster entry, no submission and no flag; the reply to
    the sender comes before the broadcast; the broadcast count is the roster
    size after the join, one more than before for a new identity and the
    same for one already on the roster; when the same connection joins again
    the last name wins. *)
Theorem join_records_name (sha256_hex : string → string) (id : string)
  (now : Z) (name : string) (gs : GameState) :
  let gs1 := (exec (onMessage sha256_hex id now (MsgJoin name)) gs).1 in
  players gs1 !! id = Some name ∧
  (∀ j, j ≠ id → players gs1 !! j = players gs !! j) ∧
  hashes gs1 = hashes gs ∧ isActive gs1 = isActive gs ∧
  startTime gs1 = startTime gs ∧ duration gs1 = duration gs ∧
  (exec (onMessage sha256_hex id now (MsgJoin name)) gs).2
  = [Send (joined id (isActive gs) (startTime gs) (duration gs));
     Broadcast (playerJoined id name (size (players gs1)))] ∧
  size (players gs1)
  = match players gs !! id with
    | Some _ => size (players gs)
    | None => S (size (players gs))
    end ∧
  (∀ now' name',
     players (exec (onMessage sha256_hex id now' (MsgJoin name')) gs1).1
     = <[id := name']> (players gs)).
Proof.
  cbv zeta. rewrite onMessage_join_exec. cbn.
  repeat split.
  - apply lookup_insert_eq.
  - intros j Hj. by apply lookup_insert_ne.
  - rewrite map_size_insert. by destruct (players gs !! id).
  - intros now' name'. apply insert_insert_eq.
Qed.

(** X6: a connection that is not on the roster, joins and then closes leaves
    the roster as it was, and the count of its [playerLeft] is the roster
    size from before the join. *)
Theorem join_then_close_restores_roster (sha256_hex : string → string)
  (id : string) (now : Z) (name : string) (gs : GameState) :
  players gs !! id = None →
  let gs1 := (exec (onMessage sha256_hex id now (MsgJoin name)) gs).1 in
  exec (onClose id) gs1
  = (gs, [Broadcast (playerLeft id (size (players gs)))]).
Proof.
  intros Hnone. cbv zeta. rewrite onMessage_join_exec, onClose_exec. cbn.
  rewrite delete_insert_id by done.
  by destruct gs.
Qed.

(** X7: during a round, the tap of a connection that has joined is recorded
    and broadcast under the name of its last join. *)
Theorem join_then_tap_uses_name (sha256_hex : string → string) (id : string)
  (now now' count : Z) (name : string) (gs : GameState) :
  isActive gs = true →
  let gs1 := (exec (onMessage sha256_hex id now (MsgJoin name)) gs).1 in
  let h := sha256_hex (id +:+ pretty now' +:+ pretty count) in
  exec (onMessage sha256_hex id now' (MsgTap count)) gs1
  = (set_hashes (hashes gs ++ [ {| playerId := id; playerName := Some name;
                                   hash := h; timestamp := now';
                                   tapCount := count |} ]) gs1,
     [Broadcast (newHash id (Some name) h (countLeadingZeros h))]).
Proof.
  intros Hact. cbv zeta. rewrite onMessage_join_exec. cbn [fst].
  rewrite onMessage_tap_active_exec by done. cbn.
  by rewrite lookup_insert_eq.
Qed.

(** X8: the start of a round forgets every name: whoever was on the roster
    before, the first tap of any connection in the new round is recorded and
    broadcast without a name, until that connection joins again. *)
Theorem startNewGame_forgets_names (sha256_hex : string → string)
  (gs : GameState) (now now' count : Z) (id : string) :
  let gs1 := (exec (startNewGame now) gs).1 in
  let h := sha256_hex (id +:+ pretty now' +:+ pretty count) in
  exec (onMessage sha256_hex id now' (MsgTap count)) gs1
  = (set_hashes [ {| playerId := id; playerName := None; hash := h;
                     timestamp := now'; tapCount := count |} ] gs1,
     [Broadcast (newHash id None h (countLeadingZeros h))]).
Proof.
  cbv zeta. rewrite startNewGame_exec. cbn [fst].
  rewrite onMessage_tap_active_exec by done. cbn.
  by rewrite lookup_empty.
Qed.

(** ** The end of a round *)

Lemma sorted_lookup_le (l : list Submission) (i j : nat) (a b : Submission) :
  StronglySorted le_timestamp l →
  l !! i = Some a → l !! j = Some b → i ≤ j → le_timestamp a b.
Proof.
  intros Hs; revert i j.
  induction Hs as [|x l Hs IH Hx]; intros i j Hi Hj Hij; [done|].
  destruct i as [|i], j as [|j]; cbn in Hi, Hj; try lia.
  - injection Hi as <-. injection Hj as <-. unfold le_timestamp; lia.
  - injection Hi as <-. rewrite Forall_forall in Hx.
    apply Hx. by eapply list_elem_of_lookup_2.
  - apply (IH i j); [done | done | lia].
Qed.

(** X9: a round with at least one submission always has a winner, also when
    no digest starts with a zero. The winner is one of the recorded
    submissions, no submission has more leading zeros, and among those with
    as many none has an earlier timestamp; the [leadingZeros] of the [winner]
    object is the count of its own digest. *)
Theorem endGame_winner_is_earliest_best (gs : GameState) :
  hashes gs ≠ [] →
  ∃ w,
    w ∈ hashes gs ∧
    (∀ x, x ∈ hashes gs →
       (zeros x ≤ zeros w)%Z ∧
       (zeros x = zeros w → (timestamp w ≤ timestamp x)%Z)) ∧
    (exec endGame gs).2
    = [Broadcast (gameEnd
         (Some {| winner_playerId := playerId w;
                  winner_playerName := players gs !! playerId w;
                  winner_hash := hash w;
                  winner_leadingZeros := Z.of_nat (countLeadingZeros (hash w)) |})
         (array_sort compare_timestamp (hashes gs)));
       SetTimeout CbStartNewGame 10000].
Proof.
  intros Hne.
  set (sorted := array_sort compare_timestamp (hashes gs)).
  assert (Hperm : sorted ≡ₚ hashes gs) by apply array_sort_perm.
  assert (Hsorted : StronglySorted le_timestamp sorted) by apply array_sort_sorted.
  destruct (scan_hashes_first_max sorted) as (w & i & Hscan & Hi & Hbefore & Hle).
  { intros Hnil. rewrite Hnil in Hperm. symmetry in Hperm.
    by apply Permutation_nil_r in Hperm. }
  exists w. split; [|split].
  - rewrite <- Hperm. by eapply list_elem_of_lookup_2.
  - intros x Hx. rewrite <- Hperm in Hx. split; [by apply Hle|].
    intros Hsame. apply list_elem_of_lookup_1 in Hx as [j Hj].
    destruct (decide (i ≤ j)) as [Hij|Hij].
    + apply (sorted_lookup_le sorted i j); done.
    + specialize (Hbefore j x ltac:(lia) Hj). lia.
  - rewrite endGame_exec. fold sorted. by rewrite Hscan.
Qed.

Lemma array_sort_idemp (l : list Submission) :
  array_sort compare_timestamp (array_sort compare_timestamp l)
  = array_sort compare_timestamp l.
Proof.
  symmetry. apply array_sort_unique; [apply array_sort_sorted | done].
Qed.

(** X10: [endGame] run a second time, with no [startNewGame] in between,
    leaves the state as the first run left it and repeats the same
    [gameEnd] message and the same timer request. *)
Theorem endGame_twice (gs : GameState) :
  exec endGame (exec endGame gs).1 = exec endGame gs.
Proof.
  rewrite !endGame_exec. cbn [fst hashes players startTime duration].
  rewrite array_sort_idemp.
  destruct (scan_hashes (array_sort compare_timestamp (hashes gs))) as [[w|] m];
    reflexivity.
Qed.

(** ** [countLeadingZeros] on a concatenation *)

Lemma zero_prefix_append (s1 s2 : string) :
  zero_prefix (s1 +:+ s2)
  = if decide (zero_prefix s1 = String.length s1)
    then String.length s1 + zero_prefix s2
    else zero_prefix s1.
Proof.
  induction s1 as [|c s1 IH].
  - reflexivity.
  - change (String c s1 +:+ s2) with (String c (s1 +:+ s2)).
    cbn [zero_prefix String.length].
    destruct (Ascii.eqb c "0"%char).
    + rewrite IH. repeat case_decide; lia.
    + case_decide; first [done | lia].
Qed.

(** X11: for a digest followed by more characters, the count is that of the
    digest when the digest has a character other than ['0'], and the length
    of the digest plus the count of the rest when the digest is all zeros;
    in particular the empty string scores 0. *)
Theorem countLeadingZeros_append (s1 s2 : string) :
  countLeadingZeros "" = 0 ∧
  countLeadingZeros (s1 +:+ s2)
  = if decide (countLeadingZeros s1 = String.length s1)
    then String.length s1 + countLeadingZeros s2
    else countLeadingZeros s1.
Proof.
  split; [reflexivity|].
  rewrite !countLeadingZeros_zero_prefix. apply zero_prefix_append.
Qed.

(** ** Broadcasting *)

Lemma inbox_app (h : nat) (l1 l2 : list (nat * ServerMsg)) :
  inbox h (l1 ++ l2) = inbox h l1 ++ inbox h l2.
Proof. unfold inbox. apply omap_app. Qed.

Lemma broadcast_sends_cons (c : Client) (clients : list Client) (m : ServerMsg) :
  broadcast_sends (c :: clients) m
  = (if decide (readyState c = OPEN) then [(handle c, m)] else [])
    ++ broadcast_sends clients m.
Proof. reflexivity. Qed.

Lemma inbox_broadcast_absent (h : nat) (clients : list Client) (m : ServerMsg) :
  h ∉ handle <$> clients → inbox h (broadcast_sends clients m) = [].
Proof.
  induction clients as [|c clients IH]; intros Hh; [done|].
  rewrite fmap_cons, not_elem_of_cons in Hh. destruct Hh as [Hne Hh].
  rewrite broadcast_sends_cons, inbox_app, (IH Hh), app_nil_r.
  case_decide; [|done]. cbn. case_decide; [congruence | done].
Qed.

Lemma inbox_broadcast (c : Client) (clients : list Client) (m : ServerMsg) :
  NoDup (handle <$> clients) → c ∈ clients →
  inbox (handle c) (broadcast_sends clients m)
  = if decide (readyState c = OPEN) then [m] else [].
Proof.
  induction clients as [|c' clients IH]; intros Hnd Hc.
  { by apply elem_of_nil in Hc. }
  rewrite fmap_cons, NoDup_cons in Hnd. destruct Hnd as [Hnotin Hnd].
  rewrite broadcast_sends_cons, inbox_app.
  apply elem_of_cons in Hc as [<-|Hc].
  - rewrite (inbox_broadcast_absent _ _ _ Hnotin), app_nil_r.
    case_decide; [|done]. cbn. by case_decide.
  - rewrite (IH Hnd Hc).
    assert (Hne : handle c' ≠ handle c).
    { intros Heq. apply Hnotin. rewrite Heq. by apply list_elem_of_fmap_2. }
    destruct (decide (readyState c' = OPEN)); [|done].
    cbn. by destruct (decide (handle c' = handle c)).
Qed.

(** X12: messages broadcast one after the other reach every open socket
    once each and in the order of the broadcasts; a socket that is not open,
    or not among the clients, is sent nothing. *)
Theorem broadcast_reaches_open_in_order (clients : list Client)
  (msgs : list ServerMsg) :
  NoDup (handle <$> clients) →
  (∀ c, c ∈ clients →
     inbox (handle c) (flat_map (broadcast_sends clients) msgs)
     = if decide (readyState c = OPEN) then msgs else []) ∧
  (∀ h, h ∉ handle <$> clients →
     inbox h (flat_map (broadcast_sends clients) msgs) = []).
Proof.
  intros Hnd. split.
  - intros c Hc. induction msgs as [|m msgs IH]; cbn [flat_map].
    + by case_decide.
    + rewrite inbox_app, IH, (inbox_broadcast _ _ _ Hnd Hc).
      by case_decide.
  - intros h Hh. induction msgs as [|m msgs IH]; cbn [flat_map]; [done|].
    by rewrite inbox_app, IH, inbox_broadcast_absent.
Qed.

(** ** The heartbeat *)

Lemma sweep_all_not_alive (clients : list Client) :
  Forall (λ ws, isAlive ws = false) (sweep clients).1.
Proof.
  unfold sweep; cbn. apply Forall_fmap, Forall_forall. intros ws _.
  unfold sweep_client, compose. by destruct (isAlive ws) eqn:Ha.
Qed.

Lemma sweep_handles (clients : list Client) :
  handle <$> (sweep clients).1 = handle <$> clients.
Proof.
  unfold sweep; cbn. rewrite <- list_fmap_compose. apply list_fmap_ext.
  intros i ws _. unfold sweep_client, compose. by destruct (isAlive ws).
Qed.

Lemma on_pong_handles (h : nat) (clients : list Client) :
  handle <$> on_pong h clients = handle <$> clients.
Proof.
  unfold on_pong. rewrite <- list_fmap_compose. apply list_fmap_ext.
  intros i ws _. unfold compose. by case_decide.
Qed.

(** After a sweep and a number of pongs, a socket is marked alive exactly
    when one of the pongs was its own. *)
Lemma pongs_after_sweep (clients : list Client) (pongs : list nat) :
  Forall (λ ws, isAlive ws = false) clients →
  Forall (λ ws, isAlive ws = bool_decide (handle ws ∈ pongs))
         (foldr on_pong clients pongs) ∧
  handle <$> foldr on_pong clients pongs = handle <$> clients.
Proof.
  intros Hdead. induction pongs as [|h pongs [IHa IHh]]; cbn.
  - split; [|done]. eapply Forall_impl; [exact Hdead|].
    intros ws ->. symmetry. apply bool_decide_eq_false. apply not_elem_of_nil.
  - split; [|by rewrite on_pong_handles].
    unfold on_pong. apply Forall_fmap. eapply Forall_impl; [exact IHa|].
    intros ws Hws. unfold compose. case_decide as Hh; cbn.
    + symmetry. apply bool_decide_eq_true. apply elem_of_cons. by left.
    + rewrite Hws. apply bool_decide_ext. rewrite elem_of_cons.
      split; [by right | by intros [Heq|Hin]].
Qed.

Lemma sweep_actions (clients : list Client) (a : HeartbeatAction) :
  a ∈ (sweep clients).2 ↔
  ∃ ws, ws ∈ clients ∧
        a = if isAlive ws then Ping (handle ws) else Terminate (handle ws).
Proof.
  unfold sweep; cbn. rewrite list_elem_of_fmap.
  split; intros (ws & H1 & H2).
  - exists ws. split; [done|]. subst a. unfold sweep_client.
    by destruct (isAlive ws).
  - exists ws. split; [|done]. subst a. unfold sweep_client.
    by destruct (isAlive ws).
Qed.

(** X13: between two firings of the heartbeat interval, a connected socket
    that answers the ping is pinged again at the second firing and not
    terminated; one that does not answer is terminated at the second firing
    and not pinged, whatever the other sockets do. A socket that has just
    connected is pinged at the next firing. *)
Theorem heartbeat_terminates_silent_sockets (clients : list Client)
  (pongs : list nat) (h : nat) :
  Ping h ∈ (sweep (on_connection h clients)).2 ∧
  (h ∈ handle <$> clients →
   let actions := (sweep (foldr on_pong (sweep clients).1 pongs)).2 in
   if decide (h ∈ pongs)
   then Ping h ∈ actions ∧ Terminate h ∉ actions
   else Terminate h ∈ actions ∧ Ping h ∉ actions).
Proof.
  split.
  { apply sweep_actions.
    exists {| handle := h; readyState := OPEN; isAlive := true |}.
    split; [|done]. apply elem_of_app. right. by apply list_elem_of_singleton. }
  intros Hh actions. subst actions.
  destruct (pongs_after_sweep (sweep clients).1 pongs (sweep_all_not_alive clients))
    as [Halive Hhandles].
  rewrite sweep_handles in Hhandles.
  rewrite <- Hhandles in Hh. apply list_elem_of_fmap in Hh as (ws & -> & Hws).
  rewrite Forall_forall in Halive.
  case_decide as Hp; split.
  - apply sweep_actions. exists ws. split; [done|].
    rewrite (Halive ws Hws). by rewrite bool_decide_eq_true_2.
  - intros (ws' & Hws' & Heq)%sweep_actions.
    rewrite (Halive ws' Hws') in Heq.
    case_bool_decide; [done|]. congruence.
  - apply sweep_actions. exists ws. split; [done|].
    rewrite (Halive ws Hws). by rewrite bool_decide_eq_false_2.
  - intros (ws' & Hws' & Heq)%sweep_actions.
    rewrite (Halive ws' Hws') in Heq.
    case_bool_decide; [|done]. congruence.
Qed.

(** X14: [/health] never reports more active than total connections, and
    right after a firing of the heartbeat interval it reports no active
    connection at all, however many sockets are connected; every socket
    counts as active again once it has answered the ping. *)
Theorem health_after_sweep (clients : list Client) :
  (health_connections clients).2 ≤ (health_connections clients).1 ∧
  health_connections (sweep clients).1 = (length clients, 0) ∧
  health_connections (foldr on_pong (sweep clients).1 (handle <$> clients))
  = (length clients, length clients).
Proof.
  unfold health_connections; cbn [fst snd]. split; [apply length_filter|].
  split.
  - f_equal.
    + unfold sweep; cbn. apply length_fmap.
    + pose proof (sweep_all_not_alive clients) as Hdead.
      induction Hdead as [|ws l Hws Hl IH]; [done|].
      rewrite filter_cons. case_decide; [congruence | done].
  - destruct (pongs_after_sweep (sweep clients).1 (handle <$> clients)
                (sweep_all_not_alive clients)) as [Halive Hhandles].
    rewrite sweep_handles in Hhandles.
    set (l := foldr on_pong (sweep clients).1 (handle <$> clients)) in *.
    assert (Hlen : length l = length clients).
    { rewrite <- (length_fmap handle l), Hhandles. apply length_fmap. }
    assert (Hall : Forall (λ ws, isAlive ws = true) l).
    { rewrite Forall_forall in Halive |- *. intros ws Hws.
      rewrite (Halive ws Hws). apply bool_decide_eq_true.
      rewrite <- Hhandles. by apply list_elem_of_fmap_2. }
    f_equal; [done|]. rewrite <- Hlen. clear -Hall.
    induction Hall as [|ws l Hws Hl IH]; [done|].
    rewrite filter_cons. case_decide; [cbn; by rewrite IH | done].
Qed.

(** ** Shutdown *)

Lemma log_only_logs (DEBUG : bool) (args : list string) :
  Forall (λ a, a = ServerUnref ∨ ∃ args', a = ConsoleLog args') (log DEBUG args).
Proof.
  unfold log. destruct (DEBUG || _); [|constructor].
  apply Forall_cons. split; [right; by eexists | constructor].
Qed.

Lemma deliver_signals_shutting_down (DEBUG : bool) (gameTimer : option bool)
  (clients : list Client) (signals : list string) (st : ServerState) :
  isShuttingDown st = true →
  let r := deliver_signals DEBUG gameTimer clients signals st in
  r.1.1 = st ∧
  r.1.2 = replicate (length signals) Returns ∧
  Forall (λ a, a = ServerUnref ∨ ∃ args, a = ConsoleLog args) r.2.
Proof.
  intros Hst. cbv zeta. induction signals as [|signal rest IH]; cbn.
  - repeat split. constructor.
  - unfold gracefulShutdown. rewrite Hst.
    destruct (deliver_signals DEBUG gameTimer clients rest st) as [[st2 cs] out2].
    cbn in *. destruct IH as (-> & -> & Hout).
    repeat split. apply Forall_app. split; [apply log_only_logs | exact Hout].
Qed.

(** X15: [gracefulShutdown] never gets to notify the clients or to close the
    servers. [gameTimer] is declared nowhere, so the first signal sets
    [isShuttingDown], logs, calls [server.unref()] and then leaves the
    function with a [ReferenceError]; every later signal returns at the
    guard. All that the calls ever do is log and [unref]. *)
Theorem gracefulShutdown_stops_at_gameTimer (DEBUG : bool)
  (clients : list Client) (signal : string) (signals : list string)
  (st : ServerState) :
  isShuttingDown st = false →
  let r := deliver_signals DEBUG gameTimer_in_scope clients (signal :: signals) st in
  isShuttingDown r.1.1 = true ∧
  r.1.2 = (Throws "ReferenceError: gameTimer is not defined"
           :: replicate (length signals) Returns) ∧
  Forall (λ a, a = ServerUnref ∨ ∃ args, a = ConsoleLog args) r.2 ∧
  (∀ h, SendSystem h ∉ r.2) ∧ (WssClose ∉ r.2) ∧ (ServerUnref ∈ r.2).
Proof.
  intros Hst r.
  set (st1 := {| serverStartTime := serverStartTime st;
                 connections := connections st; gamesPlayed := gamesPlayed st;
                 isShuttingDown := true;
                 readyForConnections := readyForConnections st |}).
  set (out1 := log DEBUG ["Received " +:+ signal +:+ ". Starting graceful shutdown..."]
               ++ [ServerUnref]).
  assert (Hg : gracefulShutdown DEBUG None clients signal st
               = (Throws "ReferenceError: gameTimer is not defined", st1, out1)).
  { unfold gracefulShutdown. by rewrite Hst. }
  assert (Hr : r = (let '(st2, cs, out2) :=
                      deliver_signals DEBUG None clients signals st1 in
                    (st2, Throws "ReferenceError: gameTimer is not defined" :: cs,
                     out1 ++ out2))).
  { subst r. unfold gameTimer_in_scope. cbn [deliver_signals]. by rewrite Hg. }
  rewrite Hr. clear Hr r Hg.
  destruct (deliver_signals_shutting_down DEBUG None clients signals st1 eq_refl)
    as (H1 & H2 & H3).
  destruct (deliver_signals DEBUG None clients signals st1) as [[st2 cs] out2].
  cbn in *. subst st2 cs.
  assert (Hall : Forall (λ a, a = ServerUnref ∨ ∃ args, a = ConsoleLog args)
                        (out1 ++ out2)).
  { subst out1. repeat (apply Forall_app; split); auto using log_only_logs.
    all: apply Forall_cons; split; [by left | constructor]. }
  split; [done|]. split; [done|]. split; [exact Hall|]. split; [|split].
  - intros h Hin. rewrite Forall_forall in Hall.
    destruct (Hall _ Hin) as [?|[? ?]]; discriminate.
  - intros Hin. rewrite Forall_forall in Hall.
    destruct (Hall _ Hin) as [?|[? ?]]; discriminate.
  - subst out1. apply elem_of_app. left. apply elem_of_app. right.
    by apply list_elem_of_singleton.
Qed.

(** ** The client page *)

Lemma trim_feed_take (fuel : nat) (children : list FeedItem) :
  length children ≤ 20 + fuel →
  trim_feed fuel children = take 20 children.
Proof.
  revert children; induction fuel as [|fuel IH]; intros children Hlen;
    cbn [trim_feed].
  - by rewrite take_ge by lia.
  - destruct (Nat.ltb_spec 20 (length children)) as [Hlt|Hge].
    + rewrite IH.
      * rewrite removelast_firstn_len, take_take. f_equal. lia.
      * rewrite removelast_firstn_len, length_take. lia.
    + by rewrite take_ge by lia.
Qed.

(** X16: [addHashToFeed] puts the new element first and keeps the first 20
    children: afterwards the feed never has more than 20 elements, and the
    loop stops because the feed is short enough, not because it was cut
    off. [addSystemMessage] does not trim, so system messages can take the
    feed above 20 until the next hash arrives. *)
Theorem addHashToFeed_keeps_20 (hashElement : FeedItem)
  (hashList : list FeedItem) (message : string) :
  addHashToFeed hashElement hashList = take 20 (hashElement :: hashList) ∧
  head (addHashToFeed hashElement hashList) = Some hashElement ∧
  length (addHashToFeed hashElement hashList) = 20 `min` S (length hashList) ∧
  length (addSystemMessage message hashList) = S (length hashList).
Proof.
  assert (Heq : addHashToFeed hashElement hashList
                = take 20 (hashElement :: hashList)).
  { unfold addHashToFeed. apply trim_feed_take. lia. }
  rewrite Heq. repeat split. by rewrite length_take.
Qed.

Lemma padStart_two_digits (seconds : Z) :
  (0 ≤ seconds < 60)%Z → padStart 2 "0" (pretty seconds) = two_digits seconds.
Proof.
  intros Hs.
  assert (Hall : Forall (λ n, padStart 2 "0" (pretty n) = two_digits n)
                        (seqZ 0 60)).
  { apply Forall_forall. intros n Hn.
    assert (Hb : forallb (λ n, bool_decide (padStart 2 "0" (pretty n) = two_digits n))
                         (seqZ 0 60) = true) by (vm_compute; reflexivity).
    rewrite forallb_forall in Hb. apply list_elem_of_In in Hn.
    eapply bool_decide_eq_true_1, Hb, Hn. }
  rewrite Forall_forall in Hall. apply Hall, elem_of_seqZ. lia.
Qed.

(** X17: once the end time has passed [updateTimer] leaves the countdown
    text alone. Before that it shows whole minutes, a colon and the seconds
    as exactly two digits below 60, and the time shown is the time left
    rounded down to the second. *)
Theorem updateTimer_shows_time_left (gameEndTime now : Z) :
  ((gameEndTime ≤ now)%Z → updateTimer gameEndTime now = None) ∧
  ((now < gameEndTime)%Z →
   ∃ minutes seconds,
     updateTimer gameEndTime now
     = Some (pretty minutes +:+ ":" +:+ two_digits seconds) ∧
     (0 ≤ minutes)%Z ∧ (0 ≤ seconds < 60)%Z ∧
     (minutes * 60 + seconds = (gameEndTime - now) / 1000)%Z).
Proof.
  unfold updateTimer. split.
  - intros Hle. rewrite Z.max_l by lia. reflexivity.
  - intros Hlt. rewrite Z.max_r by lia.
    set (remaining := (gameEndTime - now)%Z).
    assert (Hpos : (0 < remaining)%Z) by (unfold remaining; lia).
    destruct (Z.eqb_spec remaining 0) as [?|_]; [lia|].
    rewrite Z.rem_mod_nonneg by lia.
    exists (remaining / 60000)%Z, (remaining mod 60000 / 1000)%Z.
    assert (Hs : (0 ≤ remaining mod 60000 / 1000 < 60)%Z).
    { pose proof (Z.mod_pos_bound remaining 60000 ltac:(lia)).
      split; [apply Z.div_pos; lia | apply Z.div_lt_upper_bound; lia]. }
    split; [by rewrite padStart_two_digits|].
    split; [apply Z.div_pos; lia|]. split; [exact Hs|].
    pose proof (Z.div_mod remaining 60000 ltac:(lia)) as Hdm.
    rewrite Hdm at 3.
    replace (60000 * (remaining / 60000) + remaining mod 60000)%Z
      with (remaining / 60000 * 60 * 1000 + remaining mod 60000)%Z by lia.
    rewrite Z.div_add_l by lia. lia.
Qed.

(** X18: when the submissions are already in timestamp order, as they are
    when the clock never went back between taps, [endGame] keeps the
    sequence as it is, so [allHashes] is in insertion order. *)
Theorem endGame_keeps_ordered_sequence (gs : GameState) :
  StronglySorted (λ a b, (timestamp a ≤ timestamp b)%Z) (hashes gs) →
  (exec endGame gs).1 = set_isActive false gs ∧
  ∃ w, (exec endGame gs).2
       = [Broadcast (gameEnd w (hashes gs)); SetTimeout CbStartNewGame 10000].
Proof.
  intros Hs.
  assert (Heq : array_sort compare_timestamp (hashes gs) = hashes gs).
  { symmetry. by apply array_sort_unique. }
  rewrite endGame_exec, Heq. cbn. split; [done | eauto].
Qed.

(** ** The further statements at concrete inputs *)

Lemma run_allHashes_are_round_taps_witness :
  let srv := run example_digest 1000
               [Message "p1" 1100 (MsgJoin "Alice"); Message "p1" 1200 (MsgTap 1)] in
  isActive (game srv) = true ∧
  ∃ w all,
    output (step example_digest srv (Fire 0 121000))
    = output srv ++ [gameEnd w all] ∧
    newHash_of <$> all ≡ₚ round_newHashes (output srv).
Proof.
  cbv zeta. split; [reflexivity|].
  apply (run_allHashes_are_round_taps example_digest 1000
           [Message "p1" 1100 (MsgJoin "Alice"); Message "p1" 1200 (MsgTap 1)]
           121000).
  reflexivity.
Defined.

Lemma run_digests_match_fields_witness :
  let inputs := [Message "p1" 1100 (MsgJoin "Alice");
                 Message "p1" 1200 (MsgTap 1);
                 Message "p2" 1300 (MsgTap 7)] in
  Forall safe_input inputs ∧
  length (hashes (game (run example_digest 1000 inputs))) = 2 ∧
  Forall (λ s, safe_integer (timestamp s) ∧ safe_integer (tapCount s) ∧
               hash s = example_digest (playerId s +:+ pretty (timestamp s)
                                          +:+ pretty (tapCount s)))
         (hashes (game (run example_digest 1000 inputs))).
Proof.
  cbv zeta.
  assert (Hin : Forall safe_input
                  [Message "p1" 1100 (MsgJoin "Alice");
                   Message "p1" 1200 (MsgTap 1);
                   Message "p2" 1300 (MsgTap 7)]).
  { repeat constructor; unfold safe_integer; cbn; lia. }
  split; [exact Hin|]. split; [reflexivity|].
  apply (run_digests_match_fields example_digest 1000 _ Hin).
Defined.

Lemma join_records_name_witness :
  "p2" ≠ "p1" ∧
  players (exec (onMessage example_digest "p1" 1100 (MsgJoin "Bob"))
             round_in_progress).1 !! "p2"
  = players round_in_progress !! "p2".
Proof.
  split; [discriminate|].
  apply (proj1 (proj2 (join_records_name example_digest "p1" 1100 "Bob"
                         round_in_progress))).
  discriminate.
Defined.

Lemma join_then_close_restores_roster_witness :
  players round_in_progress !! "p2" = None ∧
  exec (onClose "p2")
    (exec (onMessage example_digest "p2" 1100 (MsgJoin "Bob")) round_in_progress).1
  = (round_in_progress,
     [Broadcast (playerLeft "p2" (size (players round_in_progress)))]).
Proof.
  split; [reflexivity|].
  apply (join_then_close_restores_roster example_digest "p2" 1100 "Bob"
           round_in_progress).
  reflexivity.
Defined.

Lemma join_then_tap_uses_name_witness :
  isActive round_in_progress = true ∧
  (exec (onMessage example_digest "p2" 1200 (MsgTap 1))
     (exec (onMessage example_digest "p2" 1100 (MsgJoin "Bob"))
        round_in_progress).1).2
  = [Broadcast (newHash "p2" (Some "Bob"%string)
       (example_digest ("p2" +:+ pretty 1200%Z +:+ pretty 1%Z))
       (countLeadingZeros (example_digest ("p2" +:+ pretty 1200%Z +:+ pretty 1%Z))))].
Proof.
  split; [reflexivity|].
  rewrite (join_then_tap_uses_name example_digest "p2" 1100 1200 1 "Bob"
             round_in_progress); reflexivity.
Defined.

Lemma endGame_winner_is_earliest_best_witness :
  hashes round_in_progress ≠ [] ∧
  ∃ w, w ∈ hashes round_in_progress ∧
       (∀ x, x ∈ hashes round_in_progress →
          (zeros x ≤ zeros w)%Z ∧
          (zeros x = zeros w → (timestamp w ≤ timestamp x)%Z)) ∧
       (exec endGame round_in_progress).2
       = [Broadcast (gameEnd
            (Some {| winner_playerId := playerId w;
                     winner_playerName := players round_in_progress !! playerId w;
                     winner_hash := hash w;
                     winner_leadingZeros := Z.of_nat (countLeadingZeros (hash w)) |})
            (array_sort compare_timestamp (hashes round_in_progress)));
          SetTimeout CbStartNewGame 10000].
Proof.
  split; [discriminate|].
  apply (endGame_winner_is_earliest_best round_in_progress).
  discriminate.
Defined.

Lemma broadcast_reaches_open_in_order_witness :
  let clients := [ {| handle := 1; readyState := OPEN; isAlive := true |};
                   {| handle := 2; readyState := CLOSING; isAlive := true |} ] in
  NoDup (handle <$> clients) ∧
  ∀ h, h ∉ handle <$> clients →
       inbox h (flat_map (broadcast_sends clients)
                  [gameStart (Some 1000%Z); gameEnd None []]) = [].
Proof.
  cbv zeta. split; [apply NoDup_ListNoDup; repeat constructor; cbn; lia|].
  apply (proj2 (broadcast_reaches_open_in_order
    [ {| handle := 1; readyState := OPEN; isAlive := true |};
      {| handle := 2; readyState := CLOSING; isAlive := true |} ]
    [gameStart (Some 1000%Z); gameEnd None []]
    ltac:(apply NoDup_ListNoDup; repeat constructor; cbn; lia))).
Defined.

Lemma heartbeat_terminates_silent_sockets_witness :
  let clients := [ {| handle := 1; readyState := OPEN; isAlive := true |};
                   {| handle := 2; readyState := OPEN; isAlive := true |} ] in
  2 ∈ handle <$> clients ∧
  Terminate 2 ∈ (sweep (foldr on_pong (sweep clients).1 [1])).2 ∧
  Ping 2 ∉ (sweep (foldr on_pong (sweep clients).1 [1])).2.
Proof.
  cbv zeta. split; [cbn; apply elem_of_cons; right; apply elem_of_cons; by left|].
  apply (proj2 (heartbeat_terminates_silent_sockets
    [ {| handle := 1; readyState := OPEN; isAlive := true |};
      {| handle := 2; readyState := OPEN; isAlive := true |} ] [1] 2)).
  cbn; apply elem_of_cons; right; apply elem_of_cons; by left.
Defined.

Lemma gracefulShutdown_stops_at_gameTimer_witness :
  let st := {| serverStartTime := 0; connections := 0; gamesPlayed := 0;
               isShuttingDown := false; readyForConnections := true |} in
  let clients := [ {| handle := 1; readyState := OPEN; isAlive := true |} ] in
  isShuttingDown st = false ∧
  (deliver_signals true gameTimer_in_scope clients ["SIGTERM"; "SIGINT"] st).1.2
  = [Throws "ReferenceError: gameTimer is not defined"; Returns].
Proof.
  cbv zeta. split; [reflexivity|].
  apply (proj1 (proj2 (gracefulShutdown_stops_at_gameTimer true
    [ {| handle := 1; readyState := OPEN; isAlive := true |} ]
    "SIGTERM" ["SIGINT"%string]
    {| serverStartTime := 0; connections := 0; gamesPlayed := 0;
       isShuttingDown := false; readyForConnections := true |}
    eq_refl))).
Defined.

Lemma updateTimer_shows_time_left_witness :
  (1000 < 121000)%Z ∧
  ∃ minutes seconds,
    updateTimer 121000 1000
    = Some (pretty minutes +:+ ":" +:+ two_digits seconds) ∧
    (0 ≤ minutes)%Z ∧ (0 ≤ seconds < 60)%Z ∧
    (minutes * 60 + seconds = (121000 - 1000) / 1000)%Z.
Proof.
  split; [lia|].
  apply (proj2 (updateTimer_shows_time_left 121000 1000)). lia.
Defined.

Lemma endGame_keeps_ordered_sequence_witness :
  StronglySorted (λ a b, (timestamp a ≤ timestamp b)%Z) tie_break_round ∧
  (exec endGame (set_hashes tie_break_round round_in_progress)).1
  = set_isActive false (set_hashes tie_break_round round_in_progress).
Proof.
  assert (Hs : StronglySorted (λ a b, (timestamp a ≤ timestamp b)%Z)
                 tie_break_round).
  { unfold tie_break_round. repeat constructor; cbn; lia. }
  split; [exact Hs|].
  apply (proj1 (endGame_keeps_ordered_sequence
                  (set_hashes tie_break_round round_in_progress) Hs)).
Defined.
